(** * NetBERT corpus cleaning notebook: a shallow embedding

    Source: [scripts/data_cleaning/initial_cleaning/data_processing.ipynb].

    The notebook turns one JSON shard into the plain-text corpus that BERT's
    pretraining script reads: one sentence per line, documents separated by
    blank lines.  Every cell of the notebook is a definition below; Python
    exceptions are the [Raise] outcome of an error monad; Python strings are
    lists of Unicode code points. *)

From Stdlib Require Import String Ascii.
From Stdlib Require Import List NArith ZArith Lia Bool Arith.
Import ListNotations.
Local Open Scope N_scope.

(* ================================================================== *)
(** ** Python outcomes *)

(** The exceptions the notebook's cells can raise. *)
Inductive exn : Type :=
| JSONDecodeError      (* json.load on text that is not JSON *)
| TypeError            (* len() of a number, join of a non-iterable, ... *)
| AttributeError       (* .get on a non-dict, .Text on a frame without columns *)
| IndexError           (* list index out of range *)
| UnicodeDecodeError   (* bytes.decode('utf-8') on ill-formed input *)
| KeyError             (* df['Text'] on a frame without columns *)
| LookupError.         (* raised by the sentence tokenizer (missing model) *)

Inductive result (A : Type) : Type :=
| OK (a : A)
| Raise (e : exn).
Arguments OK {A} a.
Arguments Raise {A} e.

Definition bind {A B : Type} (m : result A) (k : A -> result B) : result B :=
  match m with
  | OK a => k a
  | Raise e => Raise e
  end.

Notation "x <- m ;; k" := (bind m (fun x => k))
  (at level 61, m at next level, right associativity).

(** A list comprehension / column [apply] whose body may raise: elements are
    evaluated left to right and the first exception aborts the whole pass. *)
Fixpoint mapM {A B : Type} (f : A -> result B) (l : list A) : result (list B) :=
  match l with
  | [] => OK []
  | a :: l' => b <- f a ;; bs <- mapM f l' ;; OK (b :: bs)
  end.

(** [l[i]] *)
Definition index {A : Type} (l : list A) (i : nat) : result A :=
  match nth_error l i with
  | Some a => OK a
  | None => Raise IndexError
  end.

(* ================================================================== *)
(** ** Strings *)

(** A Python [str] is a sequence of code points, a [bytes] a sequence of
    octets. *)
Definition char : Type := N.
Definition str : Type := list char.
Definition bytes : Type := list N.

(** String literals of the notebook, written as Rocq strings. *)
Definition lit (s : string) : str := map N_of_ascii (list_ascii_of_string s).

Definition SPACE : char := 32.
Definition NEWLINE : char := 10.

(** Tables of the Unicode database that Python consults and that are no part
    of the repository. *)
Class Unicode : Type := {
  (** Numeric_Type is Digit or Decimal: the per-character test of
      [str.isdigit]. *)
  isdigit_char : char -> bool
}.

(** The sentence tokenizer, [nltk.tokenize.sent_tokenize]: an external
    collaborator, used as a black box from strings to sentence lists. *)
Class Punkt : Type := {
  sent_tokenize : str -> result (list str)
}.

Module Str.

(** [Py_UNICODE_ISSPACE]: the characters [str.split()] separates on and the
    characters the pattern [\s] matches on a [str]. *)
Definition isspace (c : char) : bool :=
  ((0x09 <=? c) && (c <=? 0x0D)) || ((0x1C <=? c) && (c <=? 0x20))
  || (c =? 0x85) || (c =? 0xA0) || (c =? 0x1680)
  || ((0x2000 <=? c) && (c <=? 0x200A))
  || (c =? 0x2028) || (c =? 0x2029) || (c =? 0x202F) || (c =? 0x205F)
  || (c =? 0x3000).

Fixpoint eqb (s t : str) : bool :=
  match s, t with
  | [], [] => true
  | c :: s', d :: t' => (c =? d) && eqb s' t'
  | _, _ => false
  end.

(** [sep.join(l)] *)
Fixpoint join (sep : str) (l : list str) : str :=
  match l with
  | [] => []
  | [s] => s
  | s :: l' => s ++ sep ++ join sep l'
  end.

(** [s.split()]: the maximal runs of non-whitespace characters, in order.
    [cur] holds the characters of the token being read, last first. *)
Fixpoint split_from (cur : str) (s : str) : list str :=
  match s with
  | [] => match cur with [] => [] | _ => [rev cur] end
  | c :: s' =>
      if isspace c
      then match cur with
           | [] => split_from [] s'
           | _ => rev cur :: split_from [] s'
           end
      else split_from (c :: cur) s'
  end.

Definition split (s : str) : list str := split_from [] s.

Fixpoint skip_spaces (s : str) : str :=
  match s with
  | c :: s' => if isspace c then skip_spaces s' else s
  | [] => []
  end.

Fixpoint take_token (s : str) : str :=
  match s with
  | c :: s' => if isspace c then [] else c :: take_token s'
  | [] => []
  end.

Fixpoint drop_token (s : str) : str :=
  match s with
  | c :: s' => if isspace c then s else drop_token s'
  | [] => []
  end.

(** [s.split(maxsplit=1)]: leading whitespace is skipped; the first token
    is cut off; whitespace after it is skipped and what is left, if
    anything, is the second element, unsplit and with its trailing
    whitespace. *)
Definition split_maxsplit1 (s : str) : list str :=
  match skip_spaces s with
  | [] => []
  | s0 =>
      take_token s0 ::
      match skip_spaces (drop_token s0) with
      | [] => []
      | rest => [rest]
      end
  end.

(** [s.isdigit()]: at least one character, and all of them digits. *)
Definition isdigit `{Unicode} (s : str) : bool :=
  match s with
  | [] => false
  | _ => forallb isdigit_char s
  end.

(** [s.encode('ascii', 'ignore')]: a code point below 128 is its own
    octet, any other is handed to the [ignore] handler, which drops it. *)
Definition encode_ascii_ignore (s : str) : bytes :=
  filter (fun c => c <? 128) s.

End Str.

Module Bytes.

Definition continuation (b : N) : bool := (0x80 <=? b) && (b <=? 0xBF).

Definition between (lo hi b : N) : bool := (lo <=? b) && (b <=? hi).

(** [b.decode('utf-8')], strict: shortest form only, no surrogates,
    nothing above U+10FFFF. *)
Fixpoint decode_utf8 (b : bytes) : result str :=
  match b with
  | [] => OK []
  | b0 :: t0 =>
      if b0 <? 0x80 then
        s <- decode_utf8 t0 ;; OK (b0 :: s)
      else if between 0xC2 0xDF b0 then
        match t0 with
        | b1 :: t1 =>
            if continuation b1
            then s <- decode_utf8 t1 ;;
                 OK ((b0 - 0xC0) * 0x40 + (b1 - 0x80) :: s)
            else Raise UnicodeDecodeError
        | _ => Raise UnicodeDecodeError
        end
      else if between 0xE0 0xEF b0 then
        match t0 with
        | b1 :: b2 :: t2 =>
            if between (if b0 =? 0xE0 then 0xA0 else 0x80)
                       (if b0 =? 0xED then 0x9F else 0xBF) b1
               && continuation b2
            then s <- decode_utf8 t2 ;;
                 OK ((b0 - 0xE0) * 0x1000 + (b1 - 0x80) * 0x40
                     + (b2 - 0x80) :: s)
            else Raise UnicodeDecodeError
        | _ => Raise UnicodeDecodeError
        end
      else if between 0xF0 0xF4 b0 then
        match t0 with
        | b1 :: b2 :: b3 :: t3 =>
            if between (if b0 =? 0xF0 then 0x90 else 0x80)
                       (if b0 =? 0xF4 then 0x8F else 0xBF) b1
               && continuation b2 && continuation b3
            then s <- decode_utf8 t3 ;;
                 OK ((b0 - 0xF0) * 0x40000 + (b1 - 0x80) * 0x1000
                     + (b2 - 0x80) * 0x40 + (b3 - 0x80) :: s)
            else Raise UnicodeDecodeError
        | _ => Raise UnicodeDecodeError
        end
      else Raise UnicodeDecodeError
  end.

End Bytes.

Module Re.

(** [re.sub('\s+', ' ', s)]: scanning left to right, every maximal run of
    whitespace characters is replaced by one space.  [in_run] tells that
    the character before the current one belonged to a run whose
    replacement has been emitted already. *)
Fixpoint sub_spaces_from (in_run : bool) (s : str) : str :=
  match s with
  | [] => []
  | c :: s' =>
      if Str.isspace c
      then if in_run then sub_spaces_from true s'
           else SPACE :: sub_spaces_from true s'
      else c :: sub_spaces_from false s'
  end.

Definition sub_spaces (s : str) : str := sub_spaces_from false s.

End Re.

(* ================================================================== *)
(** ** Decoded JSON *)

(** What [json.load] returns: objects become dicts (here the key/value
    pairs in insertion order, keys distinct), arrays lists, and so on. *)
#[warnings="-register-all"] Inductive pyval : Type :=
| PyNone
| PyBool (b : bool)
| PyInt (z : Z)
| PyFloat (repr : str)
| PyStr (s : str)
| PyList (l : list pyval)
| PyDict (d : list (str * pyval)).

Module Obj.

(** [len(v)] *)
Definition len (v : pyval) : result nat :=
  match v with
  | PyStr s => OK (length s)
  | PyList l => OK (length l)
  | PyDict d => OK (length d)
  | _ => Raise TypeError
  end.

(** The items a [for] loop over [v] visits: the elements of a list, the
    keys of a dict, the one-character strings of a string. *)
Definition iterate (v : pyval) : result (list pyval) :=
  match v with
  | PyStr s => OK (map (fun c => PyStr [c]) s)
  | PyList l => OK l
  | PyDict d => OK (map (fun kv => PyStr (fst kv)) d)
  | _ => Raise TypeError
  end.

Fixpoint lookup (d : list (str * pyval)) (key : str) : option pyval :=
  match d with
  | [] => None
  | (k, v) :: d' => if Str.eqb k key then Some v else lookup d' key
  end.

(** [v.get(key)]: only dicts have the method; a missing key gives
    [None]. *)
Definition get (v : pyval) (key : str) : result pyval :=
  match v with
  | PyDict d =>
      match lookup d key with
      | Some x => OK x
      | None => OK PyNone
      end
  | _ => Raise AttributeError
  end.

Definition as_str (v : pyval) : result str :=
  match v with
  | PyStr s => OK s
  | _ => Raise TypeError
  end.

(** [sep.join(v)]: [v] must be iterable and each of its items a [str]. *)
Definition join (sep : str) (v : pyval) : result str :=
  items <- iterate v ;;
  strs <- mapM as_str items ;;
  OK (Str.join sep strs).

(** [v is not None] *)
Definition is_not_None (v : pyval) : bool :=
  match v with
  | PyNone => false
  | _ => true
  end.

End Obj.

(* ================================================================== *)
(** ** The staging frame *)

(** One row of the [pandas] frame built from [rows]; the type of the [Text]
    column changes from cell to cell. *)
Record row (T : Type) : Type := { Text : T; Length : nat }.
Arguments Text {T} r.
Arguments Length {T} r.

Definition DataFrame (T : Type) : Type := list (row T).

(** [df.Text]: a frame built from no rows has no columns. *)
Definition getattr_Text {T : Type} (df : DataFrame T) : result (list T) :=
  match df with
  | [] => Raise AttributeError
  | _ => OK (map Text df)
  end.

(** [df.Text = col], [df['Text'] = col]: every column the notebook assigns
    was computed from the frame itself and has one entry per row. *)
Fixpoint setattr_Text {T U : Type} (df : DataFrame T) (col : list U)
  : DataFrame U :=
  match df, col with
  | r :: df', t :: col' =>
      {| Text := t; Length := Length r |} :: setattr_Text df' col'
  | _, _ => []
  end.

(** [df.Length] *)
Definition getattr_Length {T : Type} (df : DataFrame T) : result (list nat) :=
  match df with
  | [] => Raise AttributeError
  | _ => OK (map Length df)
  end.

(** [df.head()] *)
Definition head {T : Type} (df : DataFrame T) : DataFrame T := firstn 5 df.

(* ================================================================== *)
(** ** Cell 1: data extraction *)

(** The loop [for i, doc in enumerate(data)] with its accumulator
    [rows]. *)
Fixpoint extract_rows (data : list pyval) : result (list (row str)) :=
  match data with
  | [] => OK []
  | doc :: data' =>
      t <- Obj.get doc (lit "text") ;;
      if Obj.is_not_None t then
        t' <- Obj.get doc (lit "text") ;;
        text <- Obj.join (lit " ") t' ;;
        rows <- extract_rows data' ;;
        OK ({| Text := text; Length := length text |} :: rows)
      else extract_rows data'
  end.

(** The extraction cell, from the outcome of [json.load(f)] to the frame
    [df = pd.DataFrame(rows)].  [len(data)] is evaluated for the progress
    message before the loop starts. *)
Definition extract (loaded : result pyval) : result (DataFrame str) :=
  data <- loaded ;;
  _ <- Obj.len data ;;
  items <- Obj.iterate data ;;
  extract_rows items.

(** The cell that prints [df.Length.max()] and [len(df.index)]. *)
Definition report_lengths (df : DataFrame str) : result unit :=
  _ <- getattr_Length df ;;
  OK tt.

(* ================================================================== *)
(** ** Cell 2.1: corpus cleaning *)

(** [s.encode('ascii', 'ignore').decode('utf-8')] *)
Definition ascii_only (s : str) : result str :=
  Bytes.decode_utf8 (Str.encode_ascii_ignore s).

(** [df.Text = df.Text.replace('\s+', ' ', regex=True)], then
    [df.Text = df.Text.str.encode('ascii', 'ignore').str.decode('utf-8')],
    each a pass over the whole column. *)
Definition clean_corpus (df : DataFrame str) : result (DataFrame str) :=
  col <- getattr_Text df ;;
  let df := setattr_Text df (map Re.sub_spaces col) in
  col <- getattr_Text df ;;
  let encoded := map Str.encode_ascii_ignore col in
  decoded <- mapM Bytes.decode_utf8 encoded ;;
  OK (setattr_Text df decoded).

(* ================================================================== *)
(** ** Cells 2.2 - 2.4: segmentation, sentence cleaning, conversion *)

Definition nltk_segmentation `{Punkt} (doc_text : str) : result (list str) :=
  sent_tokenize doc_text.

(** The characters of the literal handed to [set(...)], in source order. *)
Definition spec_char : list char :=
  lit ",?;.:/=+%`" ++ [0xA8] ++ lit "*$" ++ [0x20AC] ++ lit "-_())"
  ++ [0xB0] ++ lit "!" ++ [0xA7] ++ lit "'" ++ [0x22] ++ lit "&@#~"
  ++ [0xAE; 0x2020; 0xBA; 0x3C0; 0x2021; 0xAC; 0x2248; 0xA9; 0x25CA]
  ++ lit "~" ++ [0x221E; 0xB5; 0x2026; 0xF7; 0x2260] ++ lit "<>^".

(** [x in spec_char]: the set holds one-character strings only. *)
Definition in_spec_char (x : str) : bool :=
  match x with
  | [c] => existsb (N.eqb c) spec_char
  | _ => false
  end.

(** [len(x)<=2 or not all(c in spec_char for c in x)] *)
Definition keep_token (x : str) : bool :=
  (length x <=? 2)%nat || negb (forallb (fun c => in_spec_char [c]) x).

(** Remove sequences of special characters. *)
Definition remove_special_sequences (sent : str) : str :=
  Str.join (lit " ") (filter keep_token (Str.split sent)).

(** If line begins with a number, remove the number. *)
Definition remove_leading_number `{Unicode} (sent : str) : result str :=
  if (1 <? length (Str.split_maxsplit1 sent))%nat then
    first <- index (Str.split_maxsplit1 sent) 0 ;;
    if Str.isdigit first
    then index (Str.split_maxsplit1 sent) 1
    else OK sent
  else OK sent.

(** If line begins with a unique special char, remove that char. *)
Definition remove_leading_special `{Unicode} (sent : str) : result str :=
  if (1 <? length (Str.split_maxsplit1 sent))%nat then
    first <- index (Str.split_maxsplit1 sent) 0 ;;
    if (length first =? 1)%nat then
      first' <- index (Str.split_maxsplit1 sent) 0 ;;
      if in_spec_char first'
      then index (Str.split_maxsplit1 sent) 1
      else OK sent
    else OK sent
  else OK sent.

(** [len(sent.split())>2 and len(sent.split())<200] *)
Definition in_window (sent : str) : bool :=
  (2 <? length (Str.split sent))%nat && (length (Str.split sent) <? 200)%nat.

Definition sent_cleaning `{Unicode} (list_sent : list str)
  : result (list str) :=
  let list_sent := map remove_special_sequences list_sent in
  list_sent <- mapM remove_leading_number list_sent ;;
  list_sent <- mapM remove_leading_special list_sent ;;
  OK (filter in_window list_sent).

Definition sent_convert (list_sent : list str) : str :=
  Str.join [NEWLINE] list_sent.

(* ================================================================== *)
(** ** Cell 2.5: apply all cleaning functions *)

(** [df['Text']] *)
Definition getitem_Text {T : Type} (df : DataFrame T) : result (list T) :=
  match df with
  | [] => Raise KeyError
  | _ => OK (map Text df)
  end.

(** Three passes over the column, each finished before the next starts:
    [nltk_segmentation], [sent_cleaning], [sent_convert]. *)
Definition apply_all `{Unicode} `{Punkt} (df : DataFrame str)
  : result (DataFrame str) :=
  col <- getitem_Text df ;;
  col <- mapM nltk_segmentation col ;;
  let df := setattr_Text df col in
  col <- getitem_Text df ;;
  col <- mapM sent_cleaning col ;;
  let df := setattr_Text df col in
  col <- getitem_Text df ;;
  OK (setattr_Text df (map sent_convert col)).

(* ================================================================== *)
(** ** Cell 2.6: concatenate all documents *)

(** [sentences = "\n\n".join(df["Text"])] *)
Definition concatenate (df : DataFrame str) : result str :=
  col <- getitem_Text df ;;
  OK (Str.join [NEWLINE; NEWLINE] col).

(** The notebook from the decoded shard to the string it writes. *)
Definition notebook `{Unicode} `{Punkt} (loaded : result pyval)
  : result str :=
  df <- extract loaded ;;
  _ <- report_lengths df ;;
  let df := head df in
  df <- clean_corpus df ;;
  df <- apply_all df ;;
  concatenate df.

(** Running the notebook against the output file: [None] is a file that
    does not exist.  [open(output_file, "w+")] and [f.write(sentences)]
    are reached only when every cell before them has returned. *)
Definition run `{Unicode} `{Punkt} (loaded : result pyval)
  (output_file : option str) : option str * result unit :=
  match notebook loaded with
  | OK sentences => (Some sentences, OK tt)
  | Raise e => (output_file, Raise e)
  end.

(* ================================================================== *)
(** ** The cell that checks the keys of the shards *)

(** [doc.items()]: only dicts have the method. *)
Definition items (doc : pyval) : result (list (str * pyval)) :=
  match doc with
  | PyDict d => OK d
  | _ => Raise AttributeError
  end.

(** The two nested loops that fill [keys]: every key of every document,
    in order, with repetitions. *)
Fixpoint collect_keys (data : list pyval) : result (list str) :=
  match data with
  | [] => OK []
  | doc :: data' =>
      kvs <- items doc ;;
      keys <- collect_keys data' ;;
      OK (map fst kvs ++ keys)
  end.

Definition str_eq_dec : forall s t : str, {s = t} + {s <> t} :=
  list_eq_dec N.eq_dec.

(** The exceptions of this cell: those of the other cells, and the one of
    the division [length/len(data)] among the arguments of [format]. *)
Inductive check_exn : Type :=
| Raised (e : exn)
| ZeroDivisionError.

(** One printed line: the number of the file, [myset] and [len(data)].  A
    Python set has no order; [myset] is kept as a list without
    repetition. *)
Record key_line : Type :=
  { id_file : nat; myset : list str; documents : nat }.

(** The body of the loop for one file, from the outcome of
    [json.load(f)]. *)
Definition check_file (id : nat) (loaded : result pyval)
  : check_exn + key_line :=
  match (data <- loaded ;;
         docs <- Obj.iterate data ;;
         keys <- collect_keys docs ;;
         n <- Obj.len data ;;
         OK (keys, n)) with
  | Raise e => inl (Raised e)
  | OK (keys, n) =>
      if (n =? 0)%nat then inl ZeroDivisionError
      else inr {| id_file := id;
                  myset := nodup str_eq_dec keys;
                  documents := n |}
  end.

(** The loop over the files, numbered from [id]: the lines printed, and
    the exception that stopped the loop if one did. *)
Fixpoint check_files (id : nat) (files : list (result pyval))
  : list key_line * option check_exn :=
  match files with
  | [] => ([], None)
  | loaded :: files' =>
      match check_file id loaded with
      | inl e => ([], Some e)
      | inr line =>
          let (printed, e) := check_files (S id) files' in
          (line :: printed, e)
      end
  end.

(* ================================================================== *)
(** ** [get_size_data.ipynb]: all shards into one frame *)

(** The inner loop, appending to the [rows] collected so far. *)
Fixpoint append_rows (rows : DataFrame str) (data : list pyval)
  : result (DataFrame str) :=
  match data with
  | [] => OK rows
  | doc :: data' =>
      text <- Obj.get doc (lit "text") ;;
      if Obj.is_not_None text then
        t <- Obj.get doc (lit "text") ;;
        text <- Obj.join (lit " ") t ;;
        append_rows (rows ++ [{| Text := text; Length := length text |}])
          data'
      else append_rows rows data'
  end.

(** The loop over the files; [rows] is created once, before it. *)
Fixpoint load_files (rows : DataFrame str) (files : list (result pyval))
  : result (DataFrame str) :=
  match files with
  | [] => OK rows
  | loaded :: files' =>
      data <- loaded ;;
      _ <- Obj.len data ;;
      docs <- Obj.iterate data ;;
      rows <- append_rows rows docs ;;
      load_files rows files'
  end.

(** The two cells together: [df = pd.DataFrame(rows)], then the raw text
    ["\n\n".join(df["Text"])] that is saved. *)
Definition raw_text (files : list (result pyval)) : result str :=
  df <- load_files [] files ;;
  concatenate df.

(* ================================================================== *)
(** ** Reading the output file, and shapes of the input *)

(** The lines of a text, as [text.split('\n')] gives them: a blank line is
    an empty element.  [cur] is the line being read, last character
    first. *)
Fixpoint lines_from (cur : str) (text : str) : list str :=
  match text with
  | [] => [rev cur]
  | c :: text' =>
      if c =? NEWLINE
      then rev cur :: lines_from [] text'
      else lines_from (c :: cur) text'
  end.

Definition lines (text : str) : list str := lines_from [] text.

(** The lines of a file that holds the sentences of each document in turn
    and one empty line between a document and the next. *)
Fixpoint one_blank_line_between (docs : list (list str)) : list str :=
  match docs with
  | [] => [[]]
  | [doc] => doc
  | doc :: docs' => doc ++ [] :: one_blank_line_between docs'
  end.


(** Every character of [s] is in the 7-bit range. *)
Definition is_ascii (s : str) : bool := forallb (fun c => c <? 128) s.

(** What the cleaning cell makes of one document. *)
Definition cleaned (text : str) : str :=
  Str.encode_ascii_ignore (Re.sub_spaces text).

(** The row of a document whose [text] is the empty list. *)
Definition empty_row : row str := {| Text := []; Length := 0 |}.

(* ================================================================== *)
(** ** Stand-ins for closed examples *)

(** The digits of the 7-bit range. *)
Definition ascii_digits : Unicode :=
  {| isdigit_char := fun c => (48 <=? c) && (c <=? 57) |}.

(** A tokenizer that ends a sentence at every full stop followed by
    whitespace or by the end of the text. *)
Fixpoint cut_at_full_stops (cur : str) (text : str) : list str :=
  match text with
  | [] => match cur with [] => [] | _ => [rev cur] end
  | c :: text' =>
      if c =? 46 then
        match text' with
        | [] => [rev (c :: cur)]
        | d :: text'' =>
            if Str.isspace d
            then rev (c :: cur) :: cut_at_full_stops [] text''
            else cut_at_full_stops (c :: cur) text'
        end
      else cut_at_full_stops (c :: cur) text'
  end.

Definition full_stop_tokenizer : Punkt :=
  {| sent_tokenize := fun text => OK (cut_at_full_stops [] text) |}.

(** A shard of two documents, the first with an empty [text]. *)
Definition shard_empty_first : pyval :=
  PyList
    [ PyDict [ (lit "uri", PyStr (lit "a")); (lit "text", PyList []) ];
      PyDict [ (lit "uri", PyStr (lit "b"));
               (lit "text", PyList [PyStr (lit "Report 2020 finished. Good.")]) ] ].

(* ================================================================== *)
(** ** Words *)

(** A word, as [split()] returns them: at least one character and no
    whitespace. *)
Definition is_word (t : str) : bool :=
  match t with
  | [] => false
  | _ => forallb (fun c => negb (Str.isspace c)) t
  end.

(** [sum(len(s.split()) for s in l)] *)
Definition count_words (l : list str) : nat :=
  list_sum (map (fun s => length (Str.split s)) l).

(** What the two leading-token steps do, told on the list of words of a
    sentence: the first word goes when it passes the test and is not the
    only word. *)
Definition drop_leading_number `{Unicode} (words : list str) : list str :=
  match words with
  | first :: (_ :: _) as rest => if Str.isdigit first then rest else words
  | _ => words
  end.

Definition drop_leading_special (words : list str) : list str :=
  match words with
  | first :: (_ :: _) as rest =>
      if (length first =? 1)%nat && in_spec_char first then rest else words
  | _ => words
  end.

(** The words [sent_cleaning] leaves of one sentence, before the length
    window. *)
Definition cleaned_words `{Unicode} (sent : str) : list str :=
  drop_leading_special
    (drop_leading_number (filter keep_token (Str.split sent))).

(** [2 < n < 200] *)
Definition window (n : nat) : bool := (2 <? n)%nat && (n <? 200)%nat.

(* ================================================================== *)
(** ** Shapes of documents and of the written text *)

(** The document gets a row: [doc.get('text') is not None]. *)
Definition has_text (doc : pyval) : bool :=
  match Obj.get doc (lit "text") with
  | OK t => Obj.is_not_None t
  | Raise _ => false
  end.

Definition is_str (v : pyval) : bool :=
  match v with
  | PyStr _ => true
  | _ => false
  end.

(** A document of the form the notebook expects: a dict whose [text], when
    it has one, is a list of strings. *)
Definition well_formed (doc : pyval) : bool :=
  match doc with
  | PyDict d =>
      match Obj.lookup d (lit "text") with
      | None => true
      | Some PyNone => true
      | Some (PyList l) => forallb is_str l
      | Some _ => false
      end
  | _ => false
  end.

(** What the cleaning cell makes of one row. *)
Definition clean_row (r : row str) : row str :=
  {| Text := cleaned (Text r); Length := Length r |}.

Definition is_blank (line : str) : bool :=
  match line with
  | [] => true
  | _ => false
  end.



(* ================================================================== *)
(** ** Strings on which the two cleaning steps may be swapped *)

(** Where a left-to-right reading of the text stands. *)
Inductive reading : Type :=
| Level      (* not in a run of whitespace, and no run pending *)
| Spaced     (* in a run of whitespace that holds a 7-bit whitespace *)
| Owing      (* in a run of whitespace with no 7-bit whitespace so far *)
| Trailing.  (* a run of whitespace, then only characters that are neither
                7-bit nor whitespace *)

(** The text can be read to its end when every run of whitespace holds a
    7-bit whitespace character and no run of characters that are neither
    7-bit nor whitespace stands between two runs of whitespace. *)
Fixpoint swappable_from (st : reading) (s : str) : bool :=
  match s with
  | [] =>
      match st with
      | Owing => false
      | _ => true
      end
  | c :: s' =>
      if c <? 128 then
        if Str.isspace c then
          match st with
          | Trailing => false
          | _ => swappable_from Spaced s'
          end
        else
          match st with
          | Owing => false
          | _ => swappable_from Level s'
          end
      else
        if Str.isspace c then
          match st with
          | Level => swappable_from Owing s'
          | Spaced => swappable_from Spaced s'
          | Owing => swappable_from Owing s'
          | Trailing => false
          end
        else
          match st with
          | Level => swappable_from Level s'
          | Spaced => swappable_from Trailing s'
          | Owing => false
          | Trailing => swappable_from Trailing s'
          end
  end.

Definition swappable (s : str) : bool := swappable_from Level s.

(** The two orders of the cleaning steps, with the scan for runs started
    outside ([in_run] false) or inside a run. *)
Definition collapse_filter (in_run : bool) (s : str) : str :=
  Str.encode_ascii_ignore (Re.sub_spaces_from in_run s).

Definition filter_collapse (in_run : bool) (s : str) : str :=
  Re.sub_spaces_from in_run (Str.encode_ascii_ignore s).

(* ================================================================== *)
(** ** More stand-ins for closed examples *)

(** A tokenizer that raises on the empty text and cuts every other text at
    its full stops. *)
Definition strict_tokenizer : Punkt :=
  {| sent_tokenize := fun text =>
       match text with
       | [] => Raise LookupError
       | _ => OK (cut_at_full_stops [] text)
       end |}.

(** A document whose [text] is the empty list. *)
Definition empty_text_doc : pyval := PyDict [(lit "text", PyList [])].

(* ================================================================== *)
(** ** Tactics *)

Ltac inv H := inversion H; subst; clear H.

(* ================================================================== *)
(** * Properties *)

(** ** The error monad *)

Lemma mapM_app {A B : Type} (f : A -> result B) (l1 l2 : list A) :
  mapM f (l1 ++ l2) =
  (r1 <- mapM f l1 ;; r2 <- mapM f l2 ;; OK (r1 ++ r2)).
Proof.
  induction l1 as [|a l1 IH]; simpl.
  - destruct (mapM f l2); reflexivity.
  - destruct (f a); simpl; [|reflexivity].
    rewrite IH. destruct (mapM f l1); simpl; [|reflexivity].
    destruct (mapM f l2); reflexivity.
Qed.

Lemma mapM_length {A B : Type} (f : A -> result B) (l : list A) (r : list B) :
  mapM f l = OK r -> length r = length l.
Proof.
  revert r. induction l as [|a l IH]; simpl; intros r E.
  - inv E. reflexivity.
  - destruct (f a); simpl in E; [|discriminate].
    destruct (mapM f l); simpl in E; [|discriminate].
    inv E. simpl. f_equal. apply IH. reflexivity.
Qed.

Lemma mapM_total {A B : Type} (f : A -> result B) :
  (forall a, exists b, f a = OK b) ->
  forall l, exists r, mapM f l = OK r.
Proof.
  intros Hf l. induction l as [|a l [r IH]]; simpl.
  - eexists. reflexivity.
  - destruct (Hf a) as [b ->]. rewrite IH. simpl. eexists. reflexivity.
Qed.

Lemma mapM_pure {A B : Type} (f : A -> result B) (g : A -> B) :
  (forall a, f a = OK (g a)) ->
  forall l, mapM f l = OK (map g l).
Proof.
  intros Hf l. induction l as [|a l IH]; simpl.
  - reflexivity.
  - rewrite Hf, IH. reflexivity.
Qed.

Lemma mapM_app_inv {A B : Type} (f : A -> result B) (l1 l2 : list A) r :
  mapM f (l1 ++ l2) = OK r ->
  exists r1 r2, r = r1 ++ r2 /\ mapM f l1 = OK r1 /\ mapM f l2 = OK r2.
Proof.
  rewrite mapM_app. intros E.
  destruct (mapM f l1) as [r1|]; simpl in E; [|discriminate].
  destruct (mapM f l2) as [r2|]; simpl in E; [|discriminate].
  inv E. exists r1, r2. auto.
Qed.

(** ** Whitespace collapse *)

Lemma isspace_SPACE : Str.isspace SPACE = true.
Proof. reflexivity. Qed.

Lemma sub_spaces_from_cons (in_run : bool) (c : char) (s : str) :
  Re.sub_spaces_from in_run (c :: s) =
  if Str.isspace c
  then if in_run then Re.sub_spaces_from true s
       else SPACE :: Re.sub_spaces_from true s
  else c :: Re.sub_spaces_from false s.
Proof. reflexivity. Qed.

(** Scanning the result of a scan again changes nothing, in whichever state
    the first scan started; after a scan that started inside a run the
    second may start inside a run too. *)
Lemma sub_spaces_from_stable (s : str) :
  (forall in_run,
     Re.sub_spaces_from false (Re.sub_spaces_from in_run s)
     = Re.sub_spaces_from in_run s)
  /\ Re.sub_spaces_from true (Re.sub_spaces_from true s)
     = Re.sub_spaces_from true s.
Proof.
  induction s as [|c s [IH1 IH2]].
  - split; [intros []|]; reflexivity.
  - split; [intros in_run|]; rewrite !sub_spaces_from_cons;
      destruct (Str.isspace c) eqn:Ec.
    + destruct in_run.
      * apply IH1.
      * rewrite sub_spaces_from_cons, isspace_SPACE. f_equal. apply IH2.
    + rewrite sub_spaces_from_cons, Ec. f_equal. apply IH1.
    + apply IH2.
    + rewrite sub_spaces_from_cons, Ec. f_equal. apply IH1.
Qed.

(** C7: replacing every run of whitespace by one space is idempotent. *)
Theorem sub_spaces_idempotent (s : str) :
  Re.sub_spaces (Re.sub_spaces s) = Re.sub_spaces s.
Proof. unfold Re.sub_spaces. apply (proj1 (sub_spaces_from_stable s)). Qed.

(** ** ASCII filtering *)

Lemma decode_utf8_ascii (b : bytes) :
  is_ascii b = true -> Bytes.decode_utf8 b = OK b.
Proof.
  induction b as [|b0 t0 IH]; intros Hb.
  - reflexivity.
  - simpl in Hb. apply andb_true_iff in Hb as [H0 Ht].
    cbn [Bytes.decode_utf8]. rewrite H0, (IH Ht). reflexivity.
Qed.

Lemma encode_ascii_ignore_is_ascii (s : str) :
  is_ascii (Str.encode_ascii_ignore s) = true.
Proof.
  unfold is_ascii, Str.encode_ascii_ignore. apply forallb_forall.
  intros c Hc. apply filter_In in Hc. tauto.
Qed.

Lemma encode_ascii_ignore_ascii (s : str) :
  is_ascii s = true -> Str.encode_ascii_ignore s = s.
Proof.
  unfold is_ascii, Str.encode_ascii_ignore.
  induction s as [|c s IH]; simpl; intros H.
  - reflexivity.
  - apply andb_true_iff in H as [Hc Hs]. rewrite Hc, (IH Hs). reflexivity.
Qed.

Lemma encode_ascii_ignore_length (s : str) :
  (length (Str.encode_ascii_ignore s) <= length s)%nat.
Proof.
  unfold Str.encode_ascii_ignore.
  induction s as [|c s IH]; simpl.
  - lia.
  - destruct (c <? 128); simpl; lia.
Qed.

(** The decoder never sees anything but 7-bit octets, so the round trip
    through [bytes] cannot raise. *)
Lemma ascii_only_value (s : str) :
  ascii_only s = OK (Str.encode_ascii_ignore s).
Proof.
  unfold ascii_only. apply decode_utf8_ascii, encode_ascii_ignore_is_ascii.
Qed.

(** C8: dropping the characters outside the 7-bit range always returns, is
    idempotent, and never makes a string longer. *)
Theorem ascii_only_idempotent_short (s : str) :
  exists t,
    ascii_only s = OK t
    /\ ascii_only t = OK t
    /\ (length t <= length s)%nat.
Proof.
  exists (Str.encode_ascii_ignore s). split; [|split].
  - apply ascii_only_value.
  - rewrite ascii_only_value. f_equal.
    apply encode_ascii_ignore_ascii, encode_ascii_ignore_is_ascii.
  - apply encode_ascii_ignore_length.
Qed.

(** ** The two cleaning steps together *)

Lemma sub_spaces_from_is_ascii (in_run : bool) (s : str) :
  is_ascii s = true -> is_ascii (Re.sub_spaces_from in_run s) = true.
Proof.
  revert in_run. induction s as [|c s IH]; intros in_run H.
  - reflexivity.
  - simpl in H. apply andb_true_iff in H as [Hc Hs].
    rewrite sub_spaces_from_cons.
    destruct (Str.isspace c); [destruct in_run|]; simpl;
      rewrite ?Hc, ?IH; auto.
Qed.

(** On a string of 7-bit characters the order of the two steps makes no
    difference, and both orders give the collapsed string. *)
Theorem cleaning_steps_commute_on_ascii (s : str) :
  is_ascii s = true ->
  ascii_only (Re.sub_spaces s) = (t <- ascii_only s ;; OK (Re.sub_spaces t))
  /\ ascii_only (Re.sub_spaces s) = OK (Re.sub_spaces s).
Proof.
  intros H. rewrite !ascii_only_value. simpl.
  rewrite (encode_ascii_ignore_ascii s H).
  rewrite encode_ascii_ignore_ascii; [auto|].
  apply sub_spaces_from_is_ascii, H.
Qed.

Lemma cleaning_steps_commute_on_ascii_witness :
  is_ascii (lit "a  b") = true
  /\ ascii_only (Re.sub_spaces (lit "a  b"))
     = (t <- ascii_only (lit "a  b") ;; OK (Re.sub_spaces t)).
Proof.
  split; [reflexivity|].
  apply (cleaning_steps_commute_on_ascii (lit "a  b")). reflexivity.
Defined.

(** C2, as stated, fails: with a letter outside the 7-bit range between two
    spaces, collapsing first leaves both spaces, filtering first leaves
    one. *)
Lemma cleaning_steps_do_not_commute :
  ~ (forall s : str,
       ascii_only (Re.sub_spaces s)
       = (t <- ascii_only s ;; OK (Re.sub_spaces t))).
Proof.
  intros H. specialize (H (lit "a " ++ [0xE9] ++ lit " b")).
  vm_compute in H. discriminate H.
Qed.

(** ** When the two steps may be swapped *)

(** A scan that starts inside a run never begins with whitespace. *)
Lemma sub_spaces_from_true_head (x t : str) (c : char) :
  Re.sub_spaces_from true x = c :: t -> Str.isspace c = false.
Proof.
  induction x as [|a x IH]; [discriminate|].
  rewrite sub_spaces_from_cons. destruct (Str.isspace a) eqn:Ea.
  - exact IH.
  - intros E. inv E. exact Ea.
Qed.

(** No scan begins with two spaces. *)
Lemma sub_spaces_from_two_spaces (x t : str) :
  Re.sub_spaces_from false x <> SPACE :: SPACE :: t.
Proof.
  destruct x as [|a x]; [discriminate|].
  rewrite sub_spaces_from_cons. destruct (Str.isspace a) eqn:Ea.
  - intros E. inv E.
    apply sub_spaces_from_true_head in H0. discriminate H0.
  - intros E. inv E. discriminate Ea.
Qed.

Lemma encode_ascii_ignore_cons (c : char) (s : str) :
  Str.encode_ascii_ignore (c :: s)
  = if c <? 128 then c :: Str.encode_ascii_ignore s
    else Str.encode_ascii_ignore s.
Proof. reflexivity. Qed.

Lemma collapse_filter_cons (b : bool) (c : char) (s : str) :
  collapse_filter b (c :: s)
  = if Str.isspace c
    then if b then collapse_filter true s
         else SPACE :: collapse_filter true s
    else if c <? 128 then c :: collapse_filter false s
         else collapse_filter false s.
Proof.
  unfold collapse_filter. rewrite sub_spaces_from_cons.
  destruct (Str.isspace c); [destruct b|]; reflexivity.
Qed.

Lemma filter_collapse_cons (b : bool) (c : char) (s : str) :
  filter_collapse b (c :: s)
  = if c <? 128
    then if Str.isspace c
         then if b then filter_collapse true s
              else SPACE :: filter_collapse true s
         else c :: filter_collapse false s
    else filter_collapse b s.
Proof.
  unfold filter_collapse. rewrite encode_ascii_ignore_cons.
  destruct (c <? 128); [apply sub_spaces_from_cons|reflexivity].
Qed.

(** Once collapsing first is a space ahead outside a run, filtering first
    cannot catch up. *)
Lemma collapse_filter_ahead (s : str) :
  SPACE :: collapse_filter false s <> filter_collapse false s.
Proof.
  induction s as [|c s IH]; [discriminate|].
  rewrite collapse_filter_cons, filter_collapse_cons.
  destruct (c <? 128) eqn:Ea, (Str.isspace c) eqn:Ew.
  - intros E. injection E as E. symmetry in E.
    apply sub_spaces_from_true_head in E. discriminate E.
  - intros E. injection E as E _. rewrite <- E in Ew. discriminate Ew.
  - intros E. symmetry in E. apply sub_spaces_from_two_spaces in E. exact E.
  - exact IH.
Qed.

(** The four ways the two results can stand to each other while the text
    is read, and the readings that tell them. *)
Lemma swappable_from_agrees (s : str) :
  (collapse_filter false s = filter_collapse false s
   <-> swappable_from Level s = true)
  /\ (collapse_filter true s = filter_collapse true s
      <-> swappable_from Spaced s = true)
  /\ (SPACE :: collapse_filter true s = filter_collapse false s
      <-> swappable_from Owing s = true)
  /\ (collapse_filter false s = filter_collapse true s
      <-> swappable_from Trailing s = true).
Proof.
  induction s as [|c s (IH0 & IH1 & IH2 & IH3)].
  - repeat split; try reflexivity; discriminate.
  - rewrite !collapse_filter_cons, !filter_collapse_cons.
    cbn [swappable_from].
    destruct (c <? 128) eqn:Ea, (Str.isspace c) eqn:Ew.
    + (* a 7-bit whitespace *)
      repeat split; intros H;
        try (apply IH1; congruence); try (f_equal; apply IH1; exact H);
        try discriminate H.
      symmetry in H. apply sub_spaces_from_true_head in H. discriminate H.
    + (* a 7-bit character that is no whitespace *)
      repeat split; intros H;
        try (apply IH0; congruence); try (f_equal; apply IH0; exact H);
        try discriminate H.
      inv H. discriminate Ew.
    + (* a whitespace outside the 7-bit range *)
      repeat split; intros H;
        try (apply IH2; exact H); try (apply IH1; exact H);
        try discriminate H.
      symmetry in H. apply sub_spaces_from_true_head in H. discriminate H.
    + (* any other character *)
      repeat split; intros H;
        try (apply IH0; exact H); try (apply IH3; exact H);
        try discriminate H.
      exfalso. exact (collapse_filter_ahead s H).
Qed.

(** C2, as the code has it.  Collapsing whitespace and then dropping the
    characters outside the 7-bit range gives the same string as the two
    steps in the other order exactly on the swappable strings: those in
    which every run of whitespace holds a 7-bit whitespace character and no
    run of other characters outside the 7-bit range has whitespace on both
    its sides. *)
Theorem cleaning_steps_commute_iff (s : str) :
  ascii_only (Re.sub_spaces s) = (t <- ascii_only s ;; OK (Re.sub_spaces t))
  <-> swappable s = true.
Proof.
  rewrite !ascii_only_value. cbn [bind]. unfold swappable.
  rewrite <- (proj1 (swappable_from_agrees s)).
  unfold collapse_filter, filter_collapse, Re.sub_spaces.
  split; [intros E; injection E as E; exact E|intros E; rewrite E; reflexivity].
Qed.

(** Strings of 7-bit characters are swappable. *)
Lemma swappable_ascii (s : str) : is_ascii s = true -> swappable s = true.
Proof.
  intros H. apply (proj1 (swappable_from_agrees s)).
  unfold collapse_filter, filter_collapse.
  rewrite (encode_ascii_ignore_ascii s H).
  apply encode_ascii_ignore_ascii, sub_spaces_from_is_ascii, H.
Qed.

(** The four kinds of text the reading tells apart: a letter outside the
    7-bit range inside a word or at the edge of a run is harmless; between
    two runs of whitespace it is not; a whitespace outside the 7-bit range
    is harmless next to a 7-bit one and not on its own. *)
Example swappable_cases :
  swappable (lit "caf" ++ [0xE9] ++ lit " au  lait") = true
  /\ swappable (lit "a " ++ [0xE9] ++ lit "b") = true
  /\ swappable (lit "a " ++ [0xE9] ++ lit " b") = false
  /\ swappable (lit "a " ++ [0xA0] ++ lit "b") = true
  /\ swappable (lit "a" ++ [0xA0] ++ lit "b") = false.
Proof. repeat split; reflexivity. Qed.

(* ================================================================== *)
(** ** Sentence cleaning *)

Section SentenceCleaning.

Context {U : Unicode}.

(** Under the guard [len(l) > 1] both [l[0]] and [l[1]] exist. *)
Lemma index_guarded {A : Type} (l : list A) :
  (1 <? length l)%nat = true ->
  exists a b, index l 0 = OK a /\ index l 1 = OK b.
Proof.
  destruct l as [|a [|b l]]; simpl; intros H; try discriminate H.
  exists a, b. split; reflexivity.
Qed.

Lemma remove_leading_number_total (sent : str) :
  exists t, remove_leading_number sent = OK t.
Proof.
  unfold remove_leading_number.
  destruct (1 <? length (Str.split_maxsplit1 sent))%nat eqn:G.
  - destruct (index_guarded _ G) as (a & b & -> & ->). simpl.
    destruct (Str.isdigit a); eexists; reflexivity.
  - eexists; reflexivity.
Qed.

Lemma remove_leading_special_total (sent : str) :
  exists t, remove_leading_special sent = OK t.
Proof.
  unfold remove_leading_special.
  destruct (1 <? length (Str.split_maxsplit1 sent))%nat eqn:G.
  - destruct (index_guarded _ G) as (a & b & -> & ->). simpl.
    destruct (length a =? 1)%nat; simpl;
      [destruct (in_spec_char a)|]; eexists; reflexivity.
  - eexists; reflexivity.
Qed.

Lemma sent_cleaning_returns (list_sent : list str) :
  exists out, sent_cleaning list_sent = OK out.
Proof.
  unfold sent_cleaning.
  destruct (mapM_total _ remove_leading_number_total
              (map remove_special_sequences list_sent)) as [l2 ->].
  simpl. destruct (mapM_total _ remove_leading_special_total l2) as [l3 ->].
  simpl. eexists; reflexivity.
Qed.

(** C9: no list of sentences makes [sent_cleaning] raise: every [[0]] and
    [[1]] it evaluates is covered by its [len(...) > 1] guard.  Without the
    guard the index does raise, on a sentence of one word. *)
Theorem sent_cleaning_total :
  (forall list_sent : list str, exists out, sent_cleaning list_sent = OK out)
  /\ index (Str.split_maxsplit1 (lit "word")) 1 = Raise IndexError.
Proof. split; [exact sent_cleaning_returns|reflexivity]. Qed.

(** C4: whatever [sent_cleaning] returns has more than 2 and fewer than 200
    whitespace-separated tokens. *)
Theorem sent_cleaning_window (list_sent out : list str) (sent : str) :
  sent_cleaning list_sent = OK out ->
  In sent out ->
  (2 < length (Str.split sent) < 200)%nat.
Proof.
  unfold sent_cleaning. intros E Hin.
  destruct (mapM remove_leading_number _) as [l2|]; simpl in E;
    [|discriminate].
  destruct (mapM remove_leading_special l2) as [l3|]; simpl in E;
    [|discriminate].
  inv E. apply filter_In in Hin as [_ Hw].
  unfold in_window in Hw. apply andb_true_iff in Hw as [H2 H200].
  apply Nat.ltb_lt in H2. apply Nat.ltb_lt in H200. lia.
Qed.

Lemma filter_in_window_skip (l1 l2 : list str) :
  filter in_window (l1 ++ [] :: l2) = filter in_window (l1 ++ l2).
Proof. rewrite !filter_app. reflexivity. Qed.

(** C6: a sentence that symbol-run removal empties passes the two
    leading-token steps unchanged and without an exception, has no token,
    and is removed by the length window: the result is that of the list
    without it. *)
Theorem emptied_sentence_is_dropped (pre post : list str) (sent : str) :
  remove_special_sequences sent = [] ->
  remove_leading_number [] = OK []
  /\ remove_leading_special [] = OK []
  /\ length (Str.split []) = 0%nat
  /\ in_window [] = false
  /\ sent_cleaning (pre ++ sent :: post) = sent_cleaning (pre ++ post).
Proof.
  intros H. repeat (split; [reflexivity|]).
  unfold sent_cleaning. rewrite !map_app. cbn [map]. rewrite H.
  rewrite !mapM_app. cbn [mapM].
  destruct (mapM remove_leading_number (map remove_special_sequences pre))
    as [p2|]; simpl; [|reflexivity].
  destruct (mapM remove_leading_number (map remove_special_sequences post))
    as [q2|]; simpl; [|reflexivity].
  rewrite !mapM_app. cbn [mapM].
  destruct (mapM remove_leading_special p2) as [p3|]; simpl; [|reflexivity].
  destruct (mapM remove_leading_special q2) as [q3|]; simpl; [|reflexivity].
  f_equal. apply filter_in_window_skip.
Qed.

End SentenceCleaning.

Lemma sent_cleaning_window_witness :
  @sent_cleaning ascii_digits
    [lit "123 The budget was approved ... unanimously"; lit "Good."]
  = OK [lit "The budget was approved unanimously"]
  /\ (2 < length (Str.split (lit "The budget was approved unanimously"))
      < 200)%nat.
Proof.
  split; [reflexivity|].
  apply (@sent_cleaning_window ascii_digits
           [lit "123 The budget was approved ... unanimously"; lit "Good."]
           [lit "The budget was approved unanimously"]).
  - reflexivity.
  - left. reflexivity.
Defined.

Lemma emptied_sentence_is_dropped_witness :
  remove_special_sequences (lit "... ---") = []
  /\ @sent_cleaning ascii_digits
       ([lit "one two three"] ++ lit "... ---" :: [lit "four five six"])
     = @sent_cleaning ascii_digits
         ([lit "one two three"] ++ [lit "four five six"]).
Proof.
  split; [reflexivity|].
  apply (@emptied_sentence_is_dropped ascii_digits
           [lit "one two three"] [lit "four five six"] (lit "... ---")).
  reflexivity.
Defined.

(* ================================================================== *)
(** ** Data extraction *)

(** The loop treats its documents one after the other: the rows of a list
    are the rows of its front followed by the rows of its back. *)
Lemma extract_rows_app (l1 l2 : list pyval) :
  extract_rows (l1 ++ l2) =
  (r1 <- extract_rows l1 ;; r2 <- extract_rows l2 ;; OK (r1 ++ r2)).
Proof.
  induction l1 as [|doc l1 IH].
  - simpl. destruct (extract_rows l2); reflexivity.
  - cbn [extract_rows app].
    destruct (Obj.get doc (lit "text")) as [t|]; cbn [bind]; [|reflexivity].
    destruct (Obj.is_not_None t); [|exact IH].
    destruct (Obj.join (lit " ") t); cbn [bind]; [|reflexivity].
    rewrite IH.
    destruct (extract_rows l1); cbn [bind]; [|reflexivity].
    destruct (extract_rows l2); reflexivity.
Qed.

Lemma extract_array (l : list pyval) :
  extract (OK (PyList l)) = extract_rows l.
Proof. reflexivity. Qed.

(** C5: a document without a [text] key raises nothing and leaves no row:
    the frame, and with it whatever the notebook writes, is that of the
    shard without the document. *)
Theorem missing_text_is_skipped {U : Unicode} {P : Punkt}
    (d : list (str * pyval)) (pre post : list pyval) :
  Obj.lookup d (lit "text") = None ->
  extract_rows [PyDict d] = OK []
  /\ extract_rows (pre ++ PyDict d :: post) = extract_rows (pre ++ post)
  /\ notebook (OK (PyList (pre ++ PyDict d :: post)))
     = notebook (OK (PyList (pre ++ post))).
Proof.
  intros H.
  assert (E1 : extract_rows [PyDict d] = OK []).
  { cbn [extract_rows Obj.get]. rewrite H. reflexivity. }
  assert (E : extract_rows (pre ++ PyDict d :: post)
              = extract_rows (pre ++ post)).
  { change (PyDict d :: post) with ([PyDict d] ++ post).
    rewrite !extract_rows_app, E1.
    destruct (extract_rows pre); cbn [bind]; [|reflexivity].
    destruct (extract_rows post); reflexivity. }
  split; [exact E1|]. split; [exact E|].
  unfold notebook. rewrite !extract_array, E. reflexivity.
Qed.

Lemma missing_text_is_skipped_witness :
  Obj.lookup [(lit "uri", PyStr (lit "c"))] (lit "text") = None
  /\ extract_rows
       ([PyDict [(lit "text", PyList [PyStr (lit "x")])]]
        ++ PyDict [(lit "uri", PyStr (lit "c"))] :: [])
     = OK [{| Text := lit "x"; Length := 1 |}].
Proof.
  split; [reflexivity|].
  rewrite (proj1 (proj2 (@missing_text_is_skipped ascii_digits
             full_stop_tokenizer [(lit "uri", PyStr (lit "c"))]
             [PyDict [(lit "text", PyList [PyStr (lit "x")])]] []
             eq_refl))).
  reflexivity.
Defined.




(* ================================================================== *)
(** ** Columns of the frame *)

Lemma Text_setattr {T V : Type} (df : DataFrame T) (col : list V) :
  length df = length col -> map Text (setattr_Text df col) = col.
Proof.
  revert col. induction df as [|r df IH]; intros [|t col] H;
    try discriminate H; simpl.
  - reflexivity.
  - f_equal. apply IH. simpl in H. lia.
Qed.

Lemma setattr_length {T V : Type} (df : DataFrame T) (col : list V) :
  length df = length col -> length (setattr_Text df col) = length df.
Proof.
  intros H. rewrite <- (length_map Text), Text_setattr; auto.
Qed.

Lemma getitem_Text_setattr {T V : Type} (df : DataFrame T) (col : list V) :
  df <> [] -> length df = length col ->
  getitem_Text (setattr_Text df col) = OK col.
Proof.
  intros Hne H. destruct df as [|r df]; [contradiction|].
  destruct col as [|t col]; [discriminate H|].
  unfold getitem_Text. cbn [setattr_Text map Text]. do 2 f_equal.
  apply Text_setattr. simpl in H. lia.
Qed.


Lemma setattr_nonempty {T V : Type} (df : DataFrame T) (col : list V) :
  df <> [] -> length df = length col -> setattr_Text df col <> [].
Proof.
  intros Hne H. destruct df; [contradiction|].
  destruct col; [discriminate H|]. discriminate.
Qed.

Lemma mapM_middle_inv {A B : Type} (f : A -> result B)
    (l1 l2 : list A) (a : A) (r : list B) :
  mapM f (l1 ++ a :: l2) = OK r ->
  exists r1 b r2,
    r = r1 ++ b :: r2 /\ f a = OK b
    /\ length r1 = length l1 /\ length r2 = length l2.
Proof.
  intros E. apply mapM_app_inv in E as (r1 & r' & -> & E1 & E2).
  cbn [mapM] in E2.
  destruct (f a) as [b|]; cbn [bind] in E2; [|discriminate].
  destruct (mapM f l2) as [r2|] eqn:E3; cbn [bind] in E2; [|discriminate].
  inv E2. exists r1, b, r2.
  repeat split; eauto using mapM_length.
Qed.

(** ** Corpus cleaning and the apply cell, column by column *)

Lemma mapM_decode_encoded (col : list str) :
  mapM Bytes.decode_utf8 (map Str.encode_ascii_ignore col)
  = OK (map Str.encode_ascii_ignore col).
Proof.
  induction col as [|s col IH]; cbn [map mapM].
  - reflexivity.
  - rewrite decode_utf8_ascii by apply encode_ascii_ignore_is_ascii.
    rewrite IH. reflexivity.
Qed.


Lemma mapM_In_total {A B : Type} (f : A -> result B) (l : list A) :
  (forall a, In a l -> exists b, f a = OK b) ->
  exists r, mapM f l = OK r.
Proof.
  induction l as [|a l IH]; intros Hf; cbn [mapM].
  - eexists; reflexivity.
  - destruct (Hf a (or_introl eq_refl)) as [b ->].
    destruct IH as [r ->]; [intros x Hx; apply Hf; right; exact Hx|].
    eexists; reflexivity.
Qed.

Lemma concatenate_value (df : DataFrame str) :
  df <> [] ->
  concatenate df = OK (Str.join [NEWLINE; NEWLINE] (map Text df)).
Proof. intros Hne. destruct df; [contradiction|reflexivity]. Qed.

Section ApplyAll.

Context {U : Unicode} {P : Punkt}.

(** Once every document has been segmented the rest of the apply cell
    cannot raise; its [Text] column holds the converted, cleaned sentence
    lists. *)
Lemma apply_all_value (df : DataFrame str) (segs : list (list str)) :
  df <> [] ->
  mapM nltk_segmentation (map Text df) = OK segs ->
  exists cl df',
    mapM sent_cleaning segs = OK cl
    /\ apply_all df = OK df'
    /\ map Text df' = map sent_convert cl.
Proof.
  intros Hne Hseg.
  destruct (mapM_total _ sent_cleaning_returns segs) as [cl Hcl].
  pose proof (mapM_length _ _ _ Hseg) as Ls. rewrite length_map in Ls.
  pose proof (mapM_length _ _ _ Hcl) as Lc.
  exists cl. unfold apply_all.
  assert (G : getitem_Text df = OK (map Text df)).
  { destruct df; [contradiction|reflexivity]. }
  rewrite G. cbn [bind]. rewrite Hseg. cbn [bind].
  rewrite getitem_Text_setattr by auto. cbn [bind].
  rewrite Hcl. cbn [bind].
  assert (L2 : length (setattr_Text df segs) = length cl).
  { rewrite setattr_length; congruence. }
  rewrite getitem_Text_setattr;
    [|apply setattr_nonempty; auto|exact L2].
  cbn [bind]. eexists. split; [reflexivity|]. split; [reflexivity|].
  apply Text_setattr.
  rewrite setattr_length; rewrite ?length_map; auto.
Qed.






End ApplyAll.


(* ================================================================== *)
(** ** The written file *)

(** C1 at a shard of two documents, the first with no text: the notebook
    joins two elements although one document only has a sentence left, and
    the file starts with two empty lines. *)
Theorem empty_document_leaves_blank_lines {U : Unicode} {P : Punkt} :
  isdigit_char 82 = false ->
  sent_tokenize [] = OK [] ->
  sent_tokenize (lit "Report 2020 finished. Good.")
  = OK [lit "Report 2020 finished."; lit "Good."] ->
  notebook (OK shard_empty_first)
  = OK (Str.join [NEWLINE; NEWLINE] [[]; lit "Report 2020 finished."])
  /\ lines (Str.join [NEWLINE; NEWLINE] [[]; lit "Report 2020 finished."])
     = [[]; []; lit "Report 2020 finished."].
Proof.
  intros HR Hempty Htok. split; [|reflexivity].
  unfold notebook.
  change (extract (OK shard_empty_first))
    with (OK [empty_row;
              {| Text := lit "Report 2020 finished. Good."; Length := 27 |}]).
  cbn [bind].
  change (report_lengths _) with (OK tt). cbn [bind].
  change (clean_corpus (head _))
    with (OK [empty_row;
              {| Text := lit "Report 2020 finished. Good."; Length := 27 |}]).
  cbn [bind].
  unfold apply_all, getitem_Text, nltk_segmentation.
  cbn [map Text empty_row bind mapM]. rewrite Hempty. cbn [bind].
  rewrite Htok. cbn [bind setattr_Text map Text mapM].
  change (sent_cleaning []) with (@OK (list str) []). cbn [bind].
  assert (E : sent_cleaning [lit "Report 2020 finished."; lit "Good."]
              = OK [lit "Report 2020 finished."]).
  { vm_compute in HR |- *. rewrite HR. reflexivity. }
  rewrite E. reflexivity.
Qed.

Lemma empty_document_leaves_blank_lines_witness :
  @isdigit_char ascii_digits 82 = false
  /\ @sent_tokenize full_stop_tokenizer [] = OK []
  /\ @notebook ascii_digits full_stop_tokenizer (OK shard_empty_first)
     = OK (Str.join [NEWLINE; NEWLINE] [[]; lit "Report 2020 finished."]).
Proof.
  split; [reflexivity|]. split; [reflexivity|].
  apply (@empty_document_leaves_blank_lines ascii_digits full_stop_tokenizer);
    reflexivity.
Defined.

(** ** Lines of the written file *)

Lemma NEWLINE_isspace : Str.isspace NEWLINE = true.
Proof. reflexivity. Qed.

Lemma lines_from_app (cur a b : str) :
  lines_from cur (a ++ NEWLINE :: b) = lines_from cur a ++ lines_from [] b.
Proof.
  revert cur. induction a as [|c a IH]; intros cur.
  - reflexivity.
  - cbn [app lines_from]. destruct (c =? NEWLINE).
    + rewrite IH. reflexivity.
    + apply IH.
Qed.

Lemma lines_from_one (cur a : str) :
  ~ In NEWLINE a -> lines_from cur a = [rev cur ++ a].
Proof.
  revert cur. induction a as [|c a IH]; intros cur Hn.
  - simpl. rewrite app_nil_r. reflexivity.
  - cbn [lines_from]. destruct (N.eqb_spec c NEWLINE) as [->|_].
    + exfalso. apply Hn. left. reflexivity.
    + rewrite IH by (intros Hin; apply Hn; right; exact Hin).
      simpl. rewrite <- app_assoc. reflexivity.
Qed.

(** A document with sentences occupies one line per sentence. *)
Lemma lines_sent_convert (doc : list str) :
  doc <> [] ->
  (forall sent, In sent doc -> ~ In NEWLINE sent) ->
  lines (sent_convert doc) = doc.
Proof.
  unfold lines, sent_convert.
  induction doc as [|sent doc IH]; intros Hne Hn; [contradiction|].
  destruct doc as [|sent' doc].
  - simpl. apply (lines_from_one []). apply Hn. left. reflexivity.
  - change (Str.join [NEWLINE] (sent :: sent' :: doc))
      with (sent ++ NEWLINE :: Str.join [NEWLINE] (sent' :: doc)).
    rewrite lines_from_app, IH.
    + rewrite (lines_from_one []) by (apply Hn; left; reflexivity).
      reflexivity.
    + discriminate.
    + intros s Hs. apply Hn. right. exact Hs.
Qed.

(** When every document has a sentence left, the joined text has the
    sentences of each document on consecutive lines and exactly one empty
    line between two documents, none before the first or after the last. *)
Lemma lines_of_joined_documents (docs : list (list str)) :
  (forall doc, In doc docs ->
     doc <> [] /\ forall sent, In sent doc -> ~ In NEWLINE sent) ->
  lines (Str.join [NEWLINE; NEWLINE] (map sent_convert docs))
  = one_blank_line_between docs.
Proof.
  induction docs as [|doc docs IH]; intros H; [reflexivity|].
  destruct (H doc (or_introl eq_refl)) as [Hne Hn].
  destruct docs as [|doc' docs].
  - simpl. apply lines_sent_convert; assumption.
  - change (Str.join [NEWLINE; NEWLINE] (map sent_convert (doc :: doc' :: docs)))
      with (sent_convert doc ++ NEWLINE ::
            NEWLINE :: Str.join [NEWLINE; NEWLINE]
                         (map sent_convert (doc' :: docs))).
    unfold lines. rewrite lines_from_app.
    change (lines_from [] (NEWLINE :: ?x)) with ([] :: lines x).
    fold (lines (sent_convert doc)).
    rewrite lines_sent_convert by assumption.
    rewrite IH by (intros d Hd; apply H; right; exact Hd).
    reflexivity.
Qed.

(** ** Sentences that leave [sent_cleaning] hold no newline *)

Lemma split_from_no_space (s cur t : str) :
  (forall c, In c cur -> Str.isspace c = false) ->
  In t (Str.split_from cur s) ->
  forall c, In c t -> Str.isspace c = false.
Proof.
  revert cur. induction s as [|a s IH]; intros cur Hcur Ht c Hc.
  - destruct cur as [|a cur]; [contradiction|].
    destruct Ht as [<-|[]]. apply Hcur, in_rev. exact Hc.
  - cbn [Str.split_from] in Ht. destruct (Str.isspace a) eqn:Ea.
    + destruct cur as [|b cur].
      * apply (IH [] (fun _ F => match F with end) Ht c Hc).
      * destruct Ht as [<-|Ht].
        -- apply Hcur, in_rev. exact Hc.
        -- apply (IH [] (fun _ F => match F with end) Ht c Hc).
    + apply (IH (a :: cur)); auto.
      intros x [<-|Hx]; auto.
Qed.

Lemma join_chars (sep : str) (l : list str) (c : char) :
  In c (Str.join sep l) -> In c sep \/ exists t, In t l /\ In c t.
Proof.
  induction l as [|t l IH]; [intros []|].
  destruct l as [|t' l].
  - intros Hc. right. exists t. split; [left; reflexivity|exact Hc].
  - change (Str.join sep (t :: t' :: l))
      with (t ++ sep ++ Str.join sep (t' :: l)).
    intros Hc. apply in_app_or in Hc as [Hc|Hc].
    + right. exists t. split; [left; reflexivity|exact Hc].
    + apply in_app_or in Hc as [Hc|Hc]; [left; exact Hc|].
      destruct (IH Hc) as [Hs|(u & Hu & Hcu)]; [left; exact Hs|].
      right. exists u. split; [right; exact Hu|exact Hcu].
Qed.

Lemma remove_special_sequences_no_newline (sent : str) :
  ~ In NEWLINE (remove_special_sequences sent).
Proof.
  unfold remove_special_sequences. intros Hc.
  apply join_chars in Hc as [[E|[]]|(t & Ht & Hc)].
  - discriminate E.
  - apply filter_In in Ht as [Ht _].
    pose proof (split_from_no_space sent [] t (fun _ F => match F with end)
                  Ht NEWLINE Hc) as E.
    rewrite NEWLINE_isspace in E. discriminate E.
Qed.

Lemma skip_spaces_incl (s : str) (c : char) :
  In c (Str.skip_spaces s) -> In c s.
Proof.
  induction s as [|a s IH]; simpl; auto.
  destruct (Str.isspace a); simpl; auto.
Qed.

Lemma drop_token_incl (s : str) (c : char) :
  In c (Str.drop_token s) -> In c s.
Proof.
  induction s as [|a s IH]; simpl; auto.
  destruct (Str.isspace a); simpl; auto.
Qed.

(** The second element of [s.split(maxsplit=1)] is a tail of [s]. *)
Lemma split_maxsplit1_rest (s rest : str) (c : char) :
  index (Str.split_maxsplit1 s) 1 = OK rest -> In c rest -> In c s.
Proof.
  unfold Str.split_maxsplit1, index.
  destruct (Str.skip_spaces s) as [|a s0] eqn:E0; [discriminate|].
  destruct (Str.skip_spaces (Str.drop_token (a :: s0))) as [|b r] eqn:E1;
    [discriminate|].
  cbn [nth_error]. intros E Hc. inv E.
  apply skip_spaces_incl. rewrite E0.
  apply drop_token_incl, skip_spaces_incl. rewrite E1. exact Hc.
Qed.

Lemma mapM_Forall {A B : Type} (f : A -> result B)
    (Q : A -> Prop) (R : B -> Prop) (l : list A) (r : list B) :
  (forall a b, f a = OK b -> Q a -> R b) ->
  mapM f l = OK r -> Forall Q l -> Forall R r.
Proof.
  intros Hf. revert r. induction l as [|a l IH]; intros r E HQ.
  - inv E. constructor.
  - cbn [mapM] in E. destruct (f a) as [b|] eqn:Eb; cbn [bind] in E;
      [|discriminate].
    destruct (mapM f l) as [r'|]; cbn [bind] in E; [|discriminate].
    inv E. inv HQ. constructor; eauto.
Qed.

Lemma mapM_In_inv {A B : Type} (f : A -> result B)
    (l : list A) (r : list B) (b : B) :
  mapM f l = OK r -> In b r -> exists a, In a l /\ f a = OK b.
Proof.
  revert r. induction l as [|a l IH]; intros r E Hb.
  - inv E. contradiction.
  - cbn [mapM] in E. destruct (f a) as [b0|] eqn:Eb; cbn [bind] in E;
      [|discriminate].
    destruct (mapM f l) as [r'|]; cbn [bind] in E; [|discriminate].
    inv E. destruct Hb as [->|Hb].
    + exists a. split; [left; reflexivity|exact Eb].
    + destruct (IH r' eq_refl Hb) as (a' & Ha' & E').
      exists a'. split; [right; exact Ha'|exact E'].
Qed.

Section Layout.

Context {U : Unicode} {P : Punkt}.

Lemma remove_leading_number_incl (sent t : str) (c : char) :
  remove_leading_number sent = OK t -> In c t -> In c sent.
Proof.
  unfold remove_leading_number.
  destruct (1 <? length (Str.split_maxsplit1 sent))%nat;
    [|intros E; inv E; auto].
  destruct (index (Str.split_maxsplit1 sent) 0) as [first|]; cbn [bind];
    [|discriminate].
  destruct (Str.isdigit first); [|intros E; inv E; auto].
  apply split_maxsplit1_rest.
Qed.

Lemma remove_leading_special_incl (sent t : str) (c : char) :
  remove_leading_special sent = OK t -> In c t -> In c sent.
Proof.
  unfold remove_leading_special.
  destruct (1 <? length (Str.split_maxsplit1 sent))%nat;
    [|intros E; inv E; auto].
  destruct (index (Str.split_maxsplit1 sent) 0) as [first|]; cbn [bind];
    [|discriminate].
  destruct (length first =? 1)%nat; [|intros E; inv E; auto].
  destruct (in_spec_char first); [|intros E; inv E; auto].
  apply split_maxsplit1_rest.
Qed.

(** A sentence that [sent_cleaning] lets through is not empty and has no
    newline in it: in the written file it is exactly one line, and not a
    blank one. *)
Lemma sent_cleaning_one_line (list_sent out : list str) (sent : str) :
  sent_cleaning list_sent = OK out ->
  In sent out ->
  sent <> [] /\ ~ In NEWLINE sent.
Proof.
  unfold sent_cleaning. intros E Hin.
  destruct (mapM remove_leading_number _) as [l2|] eqn:E2; cbn [bind] in E;
    [|discriminate].
  destruct (mapM remove_leading_special l2) as [l3|] eqn:E3; cbn [bind] in E;
    [|discriminate].
  inv E. apply filter_In in Hin as [Hin Hw]. split.
  - intros ->. discriminate Hw.
  - assert (F1 : Forall (fun s => ~ In NEWLINE s)
                   (map remove_special_sequences list_sent)).
    { apply Forall_forall. intros s Hs.
      apply in_map_iff in Hs as (s0 & <- & _).
      apply remove_special_sequences_no_newline. }
    assert (F2 : Forall (fun s => ~ In NEWLINE s) l2).
    { eapply mapM_Forall; [|exact E2|exact F1].
      intros a b Hab Ha Hb. apply Ha.
      eapply remove_leading_number_incl; eauto. }
    assert (F3 : Forall (fun s => ~ In NEWLINE s) l3).
    { eapply mapM_Forall; [|exact E3|exact F2].
      intros a b Hab Ha Hb. apply Ha.
      eapply remove_leading_special_incl; eauto. }
    rewrite Forall_forall in F3. apply F3. exact Hin.
Qed.

Lemma apply_all_inv (df df' : DataFrame str) :
  apply_all df = OK df' ->
  exists segs cl,
    mapM nltk_segmentation (map Text df) = OK segs
    /\ mapM sent_cleaning segs = OK cl
    /\ map Text df' = map sent_convert cl.
Proof.
  intros E.
  assert (Hne : df <> []) by (intros ->; discriminate E).
  destruct (mapM nltk_segmentation (map Text df)) as [segs|e] eqn:Hseg.
  - destruct (apply_all_value df segs Hne Hseg) as (cl & df2 & Hcl & E' & T).
    rewrite E in E'. inv E'. exists segs, cl. auto.
  - exfalso. unfold apply_all in E.
    replace (getitem_Text df) with (OK (map Text df)) in E
      by (destruct df; [contradiction|reflexivity]).
    cbn [bind] in E. rewrite Hseg in E. discriminate E.
Qed.

(** What C1 asks for holds of every run in which each document of the
    frame keeps a sentence: the text handed to the file is then, line by
    line, the documents' sentences with one empty line between documents.
    The documents [docs] are the sentence lists [sent_cleaning] returned,
    one per row of the frame. *)
Lemma written_file_layout (df : DataFrame str) (out : str) :
  (df <- apply_all df ;; concatenate df) = OK out ->
  exists docs : list (list str),
    length docs = length df
    /\ out = Str.join [NEWLINE; NEWLINE] (map sent_convert docs)
    /\ ((forall doc, In doc docs -> doc <> []) ->
        lines out = one_blank_line_between docs).
Proof.
  intros E. destruct (apply_all df) as [df'|] eqn:Ea; cbn [bind] in E;
    [|discriminate].
  destruct (apply_all_inv df df' Ea) as (segs & cl & Hseg & Hcl & T).
  assert (Hne' : df' <> []).
  { intros ->. unfold concatenate in E. discriminate E. }
  rewrite concatenate_value, T in E by exact Hne'. inv E.
  exists cl. split; [|split; [reflexivity|]].
  - rewrite (mapM_length _ _ _ Hcl), (mapM_length _ _ _ Hseg), length_map.
    reflexivity.
  - intros Hdocs. apply lines_of_joined_documents.
    intros doc Hdoc. split; [auto|].
    intros sent Hsent.
    destruct (mapM_In_inv _ _ _ _ Hcl Hdoc) as (seg & _ & Hdoc').
    apply (sent_cleaning_one_line _ _ _ Hdoc' Hsent).
Qed.

End Layout.

(* ================================================================== *)
(** ** Worked examples *)

(** The members of [spec_char], as code points: 44 distinct characters. *)
Example spec_char_members :
  forallb (fun c => existsb (N.eqb c) spec_char)
    [33; 34; 35; 36; 37; 38; 39; 40; 41; 42; 43; 44; 45; 46; 47; 58; 59; 60;
     61; 62; 63; 64; 94; 95; 96; 126; 167; 168; 169; 172; 174; 176; 181; 186;
     247; 960; 8224; 8225; 8230; 8364; 8734; 8776; 8800; 9674] = true
  /\ length (nodup N.eq_dec spec_char) = 44%nat.
Proof. split; reflexivity. Qed.

Example sub_spaces_run :
  Re.sub_spaces (lit " a" ++ [9; 10; 0xA0] ++ lit "b  ") = lit " a b ".
Proof. reflexivity. Qed.

Example split_maxsplit1_keeps_tail :
  Str.split_maxsplit1 (lit "  12  apples and   pears ")
  = [lit "12"; lit "apples and   pears "].
Proof. reflexivity. Qed.

Example decode_utf8_two_octets :
  Bytes.decode_utf8 [0x63; 0xC3; 0xA9] = OK [0x63; 0xE9]
  /\ Bytes.decode_utf8 [0x63; 0xC3] = Raise UnicodeDecodeError
  /\ Bytes.decode_utf8 [0xC0; 0x80] = Raise UnicodeDecodeError.
Proof. repeat split; reflexivity. Qed.

(** A leading number goes, a run of symbols goes, a two-word sentence
    goes. *)
Example sent_cleaning_budget :
  @sent_cleaning ascii_digits
    [lit "123 The budget was approved unanimously by everyone present.";
     lit "Good.";
     lit "- see the ---- annex below"]
  = OK [lit "The budget was approved unanimously by everyone present.";
        lit "see the annex below"].
Proof. reflexivity. Qed.

(** One document, two sentences, the second too short. *)
Example notebook_report :
  @notebook ascii_digits full_stop_tokenizer
    (OK (PyList [PyDict [(lit "uri", PyStr (lit "u"));
                         (lit "text", PyList [PyStr (lit "Report 2020");
                                              PyStr (lit "finished. Good.")])]]))
  = OK (lit "Report 2020 finished.").
Proof. reflexivity. Qed.

(** A shard without documents: the frame has no columns and the run stops
    before anything is written. *)
Example notebook_empty_array :
  @run ascii_digits full_stop_tokenizer (OK (PyList [])) (Some (lit "old"))
  = (Some (lit "old"), Raise AttributeError).
Proof. reflexivity. Qed.

(** A document in the middle that loses all its sentences leaves three
    empty lines between its neighbours. *)
Example three_blank_lines :
  lines (Str.join [NEWLINE; NEWLINE]
           (map sent_convert [[lit "a b c"]; []; [lit "d e f"]]))
  = [lit "a b c"; []; []; []; lit "d e f"].
Proof. reflexivity. Qed.

(* ================================================================== *)
(** * Further properties of the notebook's code *)

(** ** [split] and [join] *)

Lemma is_word_inv (t : str) :
  is_word t = true ->
  t <> [] /\ forall c, In c t -> Str.isspace c = false.
Proof.
  destruct t as [|a t]; [discriminate|]. intros H. split; [discriminate|].
  intros c Hc. unfold is_word in H. rewrite forallb_forall in H.
  apply negb_true_iff, H, Hc.
Qed.

Lemma is_word_intro (t : str) :
  t <> [] -> (forall c, In c t -> Str.isspace c = false) -> is_word t = true.
Proof.
  intros Hne H. destruct t as [|a t]; [contradiction|].
  unfold is_word. apply forallb_forall. intros c Hc.
  apply negb_true_iff, H, Hc.
Qed.

(** Reading the characters of a word only extends the current token. *)
Lemma split_from_word (t cur s : str) :
  (forall c, In c t -> Str.isspace c = false) ->
  Str.split_from cur (t ++ s) = Str.split_from (rev t ++ cur) s.
Proof.
  revert cur. induction t as [|a t IH]; intros cur H; [reflexivity|].
  cbn [app Str.split_from]. rewrite (H a (or_introl eq_refl)).
  rewrite IH by (intros c Hc; apply H; right; exact Hc).
  simpl. rewrite <- app_assoc. reflexivity.
Qed.

(** A whitespace character ends whatever precedes it. *)
Lemma split_from_space (cur a b : str) (w : char) :
  Str.isspace w = true ->
  Str.split_from cur (a ++ w :: b)
  = Str.split_from cur a ++ Str.split_from [] b.
Proof.
  intros Hw. revert cur. induction a as [|c a IH]; intros cur.
  - cbn [app Str.split_from]. rewrite Hw. destruct cur; reflexivity.
  - cbn [app Str.split_from]. destruct (Str.isspace c).
    + destruct cur; rewrite IH; reflexivity.
    + apply IH.
Qed.

Lemma split_word (t : str) : is_word t = true -> Str.split t = [t].
Proof.
  intros H. apply is_word_inv in H as [Hne H]. unfold Str.split.
  rewrite <- (app_nil_r t) at 1. rewrite split_from_word by exact H.
  rewrite app_nil_r. cbn [Str.split_from].
  destruct (rev t) eqn:E.
  - apply (f_equal (@rev char)) in E. rewrite rev_involutive in E.
    contradiction.
  - rewrite <- E, rev_involutive. reflexivity.
Qed.

Lemma split_from_words (s cur t : str) :
  is_word (rev cur) = true \/ cur = [] ->
  In t (Str.split_from cur s) -> is_word t = true.
Proof.
  revert cur. induction s as [|a s IH]; intros cur Hcur Ht.
  - destruct cur as [|b cur]; [contradiction|].
    destruct Ht as [<-|[]]. destruct Hcur as [H|H]; [exact H|discriminate].
  - cbn [Str.split_from] in Ht. destruct (Str.isspace a) eqn:Ea.
    + destruct cur as [|b cur].
      * apply (IH []); auto.
      * destruct Ht as [<-|Ht].
        -- destruct Hcur as [H|H]; [exact H|discriminate].
        -- apply (IH []); auto.
    + apply (IH (a :: cur)); [|exact Ht]. left.
      apply is_word_intro.
      * simpl. destruct (rev cur); discriminate.
      * intros c Hc. apply in_rev in Hc. destruct Hc as [<-|Hc]; [exact Ea|].
        destruct Hcur as [H | ->]; [|contradiction].
        apply is_word_inv in H as [_ H]. apply H, in_rev.
        rewrite rev_involutive. exact Hc.
Qed.

Lemma split_words (s t : str) : In t (Str.split s) -> is_word t = true.
Proof. apply split_from_words. right. reflexivity. Qed.

Lemma split_leading_spaces (sep s : str) :
  (forall c, In c sep -> Str.isspace c = true) ->
  Str.split (sep ++ s) = Str.split s.
Proof.
  unfold Str.split. induction sep as [|w sep IH]; intros H; [reflexivity|].
  cbn [app Str.split_from]. rewrite (H w (or_introl eq_refl)).
  apply IH. intros c Hc. apply H. right. exact Hc.
Qed.

(** Joining with a separator made of whitespace and splitting again gives
    the words of the pieces, one piece after the other. *)
Lemma split_join (sep : str) (l : list str) :
  sep <> [] -> (forall c, In c sep -> Str.isspace c = true) ->
  Str.split (Str.join sep l) = concat (map Str.split l).
Proof.
  intros Hne Hsep. induction l as [|s l IH]; [reflexivity|].
  destruct l as [|s' l].
  - simpl. rewrite app_nil_r. reflexivity.
  - change (Str.join sep (s :: s' :: l))
      with (s ++ sep ++ Str.join sep (s' :: l)).
    destruct sep as [|w sep]; [contradiction|].
    cbn [app]. unfold Str.split at 1.
    rewrite split_from_space by (apply Hsep; left; reflexivity).
    fold (Str.split s). fold (Str.split (sep ++ Str.join (w :: sep) (s' :: l))).
    rewrite split_leading_spaces by (intros c Hc; apply Hsep; right; exact Hc).
    rewrite IH. reflexivity.
Qed.

Lemma split_join_words (l : list str) :
  (forall t, In t l -> is_word t = true) ->
  Str.split (Str.join (lit " ") l) = l.
Proof.
  intros H. rewrite split_join.
  - induction l as [|t l IH]; [reflexivity|].
    cbn [map concat]. rewrite split_word by (apply H; left; reflexivity).
    rewrite IH by (intros u Hu; apply H; right; exact Hu). reflexivity.
  - discriminate.
  - intros c [<-|[]]. reflexivity.
Qed.

(** ** Symbol-run removal *)

Lemma split_remove_special_sequences (sent : str) :
  Str.split (remove_special_sequences sent)
  = filter keep_token (Str.split sent).
Proof.
  unfold remove_special_sequences. apply split_join_words.
  intros t Ht. apply filter_In in Ht as [Ht _].
  eapply split_words; eauto.
Qed.

(** X1: the words of a sentence after symbol-run removal are the words of
    the sentence that pass the test, in their order; no word of more than
    two characters, all of them in [spec_char], is left. *)
Theorem remove_special_sequences_words (sent : str) :
  Str.split (remove_special_sequences sent)
  = filter keep_token (Str.split sent)
  /\ forall x, In x (Str.split (remove_special_sequences sent)) ->
       (length x <= 2)%nat
       \/ exists c, In c x /\ in_spec_char [c] = false.
Proof.
  pose proof (split_remove_special_sequences sent) as E.
  split; [exact E|].
  intros x Hx. rewrite E in Hx. apply filter_In in Hx as [_ Hk].
  unfold keep_token in Hk. apply orb_true_iff in Hk as [Hk|Hk].
  - left. apply Nat.leb_le. exact Hk.
  - right. apply negb_true_iff in Hk.
    rewrite <- not_true_iff_false, forallb_forall in Hk.
    destruct (existsb (fun c => negb (in_spec_char [c])) x) eqn:Ex.
    + apply existsb_exists in Ex as (c & Hc & Hn).
      exists c. split; [exact Hc|]. apply negb_true_iff. exact Hn.
    + exfalso. apply Hk. intros c Hc.
      rewrite <- not_true_iff_false, existsb_exists in Ex.
      destruct (in_spec_char [c]) eqn:Ec; [reflexivity|].
      exfalso. apply Ex. exists c. rewrite Ec. auto.
Qed.

Lemma filter_idem {A : Type} (f : A -> bool) (l : list A) :
  filter f (filter f l) = filter f l.
Proof.
  induction l as [|a l IH]; [reflexivity|].
  simpl. destruct (f a) eqn:E; simpl; rewrite ?E, IH; reflexivity.
Qed.

(** X2: symbol-run removal is idempotent. *)
Theorem remove_special_sequences_idempotent (sent : str) :
  remove_special_sequences (remove_special_sequences sent)
  = remove_special_sequences sent.
Proof.
  unfold remove_special_sequences at 1.
  rewrite split_remove_special_sequences, filter_idem.
  reflexivity.
Qed.

(** ** [split(maxsplit=1)] on sentences written with single spaces *)

Lemma skip_spaces_word (t x : str) :
  is_word t = true -> Str.skip_spaces (t ++ x) = t ++ x.
Proof.
  intros H. apply is_word_inv in H as [Hne H].
  destruct t as [|a t]; [contradiction|].
  cbn [app Str.skip_spaces]. rewrite (H a (or_introl eq_refl)). reflexivity.
Qed.

Lemma take_token_word (t x : str) :
  (forall c, In c t -> Str.isspace c = false) ->
  Str.take_token (t ++ x) = t ++ Str.take_token x.
Proof.
  induction t as [|a t IH]; intros H; [reflexivity|].
  cbn [app Str.take_token]. rewrite (H a (or_introl eq_refl)).
  rewrite IH by (intros c Hc; apply H; right; exact Hc). reflexivity.
Qed.

Lemma drop_token_word (t x : str) :
  (forall c, In c t -> Str.isspace c = false) ->
  Str.drop_token (t ++ x) = Str.drop_token x.
Proof.
  induction t as [|a t IH]; intros H; [reflexivity|].
  cbn [app Str.drop_token]. rewrite (H a (or_introl eq_refl)).
  apply IH. intros c Hc. apply H. right. exact Hc.
Qed.

Lemma join_words_head (t : str) (l : list str) :
  exists x, Str.join (lit " ") (t :: l) = t ++ x.
Proof.
  destruct l as [|t' l].
  - exists []. simpl. rewrite app_nil_r. reflexivity.
  - eexists. reflexivity.
Qed.

Lemma split_maxsplit1_word_app (t x : str) :
  is_word t = true ->
  Str.split_maxsplit1 (t ++ x)
  = (t ++ Str.take_token x)
    :: match Str.skip_spaces (Str.drop_token x) with
       | [] => []
       | rest => [rest]
       end.
Proof.
  intros Ht. unfold Str.split_maxsplit1. rewrite skip_spaces_word by exact Ht.
  destruct (t ++ x) as [|a s0] eqn:E.
  { destruct t; discriminate. }
  rewrite <- E. clear E a s0.
  pose proof (proj2 (is_word_inv t Ht)) as Hs.
  rewrite take_token_word, drop_token_word by exact Hs. reflexivity.
Qed.

(** On words joined by single spaces, [split(maxsplit=1)] returns the first
    word and, when there are more, the others still joined. *)
Lemma split_maxsplit1_join (words : list str) :
  (forall t, In t words -> is_word t = true) ->
  Str.split_maxsplit1 (Str.join (lit " ") words)
  = match words with
    | [] => []
    | [t] => [t]
    | t :: rest => [t; Str.join (lit " ") rest]
    end.
Proof.
  intros H. destruct words as [|t [|t' rest]].
  - reflexivity.
  - assert (Ht : is_word t = true) by (apply H; left; reflexivity).
    cbn [Str.join]. rewrite <- (app_nil_r t) at 1.
    rewrite split_maxsplit1_word_app by exact Ht.
    simpl. rewrite app_nil_r. reflexivity.
  - assert (Ht : is_word t = true) by (apply H; left; reflexivity).
    assert (Ht' : is_word t' = true) by (apply H; right; left; reflexivity).
    change (Str.join (lit " ") (t :: t' :: rest))
      with (t ++ SPACE :: Str.join (lit " ") (t' :: rest)).
    rewrite split_maxsplit1_word_app by exact Ht.
    cbn [Str.take_token Str.drop_token]. rewrite isspace_SPACE.
    rewrite app_nil_r. cbn [Str.skip_spaces]. rewrite isspace_SPACE.
    destruct (join_words_head t' rest) as [x Ex]. rewrite Ex.
    rewrite skip_spaces_word by exact Ht'.
    destruct t' as [|b t'']; [discriminate|]. reflexivity.
Qed.

(** ** Sentence cleaning, word by word *)

Lemma mapM_map_pure {A B C : Type} (f : B -> result C) (g : A -> B)
    (h : A -> C) (l : list A) :
  (forall a, f (g a) = OK (h a)) -> mapM f (map g l) = OK (map h l).
Proof.
  intros H. induction l as [|a l IH]; [reflexivity|].
  cbn [map mapM]. rewrite H, IH. reflexivity.
Qed.

Lemma filter_map_swap {A B : Type} (p : B -> bool) (f : A -> B) (l : list A) :
  filter p (map f l) = map f (filter (fun a => p (f a)) l).
Proof.
  induction l as [|a l IH]; [reflexivity|].
  cbn [map filter]. destruct (p (f a)); cbn [map]; rewrite IH; reflexivity.
Qed.

Section WordByWord.

Context {U : Unicode}.

Lemma remove_leading_number_join (words : list str) :
  (forall t, In t words -> is_word t = true) ->
  remove_leading_number (Str.join (lit " ") words)
  = OK (Str.join (lit " ") (drop_leading_number words)).
Proof.
  intros H. unfold remove_leading_number.
  rewrite split_maxsplit1_join by exact H.
  destruct words as [|t [|t' rest]]; try reflexivity.
  cbn [length Nat.ltb Nat.leb index nth_error bind drop_leading_number].
  destruct (Str.isdigit t); reflexivity.
Qed.

Lemma remove_leading_special_join (words : list str) :
  (forall t, In t words -> is_word t = true) ->
  remove_leading_special (Str.join (lit " ") words)
  = OK (Str.join (lit " ") (drop_leading_special words)).
Proof.
  intros H. unfold remove_leading_special.
  rewrite split_maxsplit1_join by exact H.
  destruct words as [|t [|t' rest]]; try reflexivity.
  cbn [length Nat.ltb Nat.leb index nth_error bind drop_leading_special].
  destruct (length t =? 1)%nat; cbn [andb bind]; [|reflexivity].
  destruct (in_spec_char t); reflexivity.
Qed.

Lemma drop_leading_number_incl (words : list str) (t : str) :
  In t (drop_leading_number words) -> In t words.
Proof.
  destruct words as [|a [|b rest]]; auto.
  cbn [drop_leading_number]. destruct (Str.isdigit a); auto.
  intros H. right. exact H.
Qed.

Lemma drop_leading_special_incl (words : list str) (t : str) :
  In t (drop_leading_special words) -> In t words.
Proof.
  destruct words as [|a [|b rest]]; auto.
  cbn [drop_leading_special].
  destruct ((length a =? 1)%nat && in_spec_char a); auto.
  intros H. right. exact H.
Qed.

Lemma kept_words (sent t : str) :
  In t (filter keep_token (Str.split sent)) -> is_word t = true.
Proof.
  intros H. apply filter_In in H as [H _]. eapply split_words; eauto.
Qed.

Lemma cleaned_words_are_words (sent t : str) :
  In t (cleaned_words sent) -> is_word t = true.
Proof.
  intros H. apply (kept_words sent).
  apply drop_leading_number_incl, drop_leading_special_incl, H.
Qed.

Lemma sent_cleaning_value (list_sent : list str) :
  sent_cleaning list_sent
  = OK (map (Str.join (lit " "))
          (filter (fun words => window (length words))
             (map cleaned_words list_sent))).
Proof.
  unfold sent_cleaning.
  rewrite (mapM_map_pure remove_leading_number remove_special_sequences
             (fun s => Str.join (lit " ")
                         (drop_leading_number
                            (filter keep_token (Str.split s))))).
  2:{ intros s. apply remove_leading_number_join, kept_words. }
  cbn [bind].
  rewrite (mapM_map_pure remove_leading_special _
             (fun s => Str.join (lit " ") (cleaned_words s))).
  2:{ intros s. apply remove_leading_special_join.
      intros t Ht. apply (kept_words s), drop_leading_number_incl, Ht. }
  cbn [bind]. f_equal.
  rewrite <- (map_map cleaned_words (Str.join (lit " "))).
  rewrite filter_map_swap. f_equal.
  apply filter_ext_in. intros words Hw.
  apply in_map_iff in Hw as (s & <- & _).
  unfold in_window, window.
  rewrite split_join_words by apply cleaned_words_are_words. reflexivity.
Qed.

(** X3: [sent_cleaning] in closed form.  Each sentence is cut into words,
    the symbol runs go, then a leading number, then a leading one-character
    symbol (never the only word); the sentences with more than 2 and fewer
    than 200 words left are returned, their words joined by single
    spaces. *)
Theorem sent_cleaning_closed_form (list_sent : list str) :
  exists out,
    sent_cleaning list_sent = OK out
    /\ out = map (Str.join (lit " "))
               (filter (fun words => window (length words))
                  (map cleaned_words list_sent))
    /\ map Str.split out
       = filter (fun words => window (length words))
           (map cleaned_words list_sent).
Proof.
  eexists. split; [apply sent_cleaning_value|]. split; [reflexivity|].
  rewrite map_map.
  rewrite <- (map_id (filter _ (map cleaned_words list_sent))) at 2.
  apply map_ext_in. intros words Hw.
  apply filter_In in Hw as [Hw _].
  apply in_map_iff in Hw as (s & <- & _).
  apply split_join_words, cleaned_words_are_words.
Qed.

(** X4: a sentence [sent_cleaning] returns is written with single spaces:
    no whitespace before its first or after its last word, one space
    between two words, and its words are the cleaned words of one of the
    sentences given. *)
Theorem sent_cleaning_single_spaces (list_sent out : list str) (sent : str) :
  sent_cleaning list_sent = OK out ->
  In sent out ->
  Str.join (lit " ") (Str.split sent) = sent
  /\ exists given, In given list_sent /\ Str.split sent = cleaned_words given.
Proof.
  rewrite sent_cleaning_value. intros E Hin. inv E.
  apply in_map_iff in Hin as (words & <- & Hw).
  apply filter_In in Hw as [Hw _].
  apply in_map_iff in Hw as (given & <- & Hg).
  rewrite split_join_words by apply cleaned_words_are_words.
  split; [reflexivity|]. exists given. auto.
Qed.

(** X5: [sent_cleaning] treats every sentence on its own and keeps the
    order: the result for a list cut in two is the result for the front
    followed by the result for the back, and it is never longer than the
    list. *)
Theorem sent_cleaning_app (front back : list str) :
  exists out1 out2,
    sent_cleaning front = OK out1
    /\ sent_cleaning back = OK out2
    /\ sent_cleaning (front ++ back) = OK (out1 ++ out2)
    /\ (length out1 <= length front)%nat.
Proof.
  rewrite !sent_cleaning_value. do 2 eexists.
  split; [reflexivity|]. split; [reflexivity|]. split.
  - rewrite map_app, filter_app, map_app. reflexivity.
  - rewrite length_map.
    etransitivity; [apply filter_length_le|]. rewrite length_map. lia.
Qed.

End WordByWord.

Lemma sent_cleaning_single_spaces_witness :
  @sent_cleaning ascii_digits [lit "  7   one ...  two   three  "]
  = OK [lit "one two three"]
  /\ Str.join (lit " ") (Str.split (lit "one two three"))
     = lit "one two three".
Proof.
  split; [reflexivity|].
  apply (@sent_cleaning_single_spaces ascii_digits
           [lit "  7   one ...  two   three  "] [lit "one two three"]
           (lit "one two three")).
  - reflexivity.
  - left. reflexivity.
Defined.

(** ** The cleaning cell *)

Lemma setattr_Text_map {T V : Type} (df : DataFrame T) (f : row T -> V) :
  setattr_Text df (map f df)
  = map (fun r => {| Text := f r; Length := Length r |}) df.
Proof.
  induction df as [|r df IH]; [reflexivity|].
  cbn [map setattr_Text]. rewrite IH. reflexivity.
Qed.

Lemma clean_corpus_frame (df : DataFrame str) :
  df <> [] -> clean_corpus df = OK (map clean_row df).
Proof.
  intros Hne. unfold clean_corpus.
  replace (getattr_Text df) with (OK (map Text df))
    by (destruct df; [contradiction|reflexivity]).
  cbn [bind]. rewrite map_map, setattr_Text_map.
  set (df1 := map _ df).
  assert (Hne1 : df1 <> []) by (destruct df; [contradiction|discriminate]).
  replace (getattr_Text df1) with (OK (map Text df1))
    by (destruct df1; [contradiction|reflexivity]).
  cbn [bind]. rewrite mapM_decode_encoded. cbn [bind].
  rewrite map_map, setattr_Text_map. unfold df1. rewrite map_map.
  reflexivity.
Qed.

(** X6: the cleaning cell raises on a frame without rows and on no other;
    it rewrites the [Text] of every row and leaves [Length], the length of
    the text before cleaning, as it was. *)
Theorem clean_corpus_rows (df : DataFrame str) :
  clean_corpus df
  = match df with
    | [] => Raise AttributeError
    | _ => OK (map clean_row df)
    end.
Proof.
  destruct df as [|r df]; [reflexivity|].
  apply clean_corpus_frame. discriminate.
Qed.

Lemma sub_spaces_from_only_spaces (in_run : bool) (s : str) (c : char) :
  In c (Re.sub_spaces_from in_run s) -> Str.isspace c = true -> c = SPACE.
Proof.
  revert in_run. induction s as [|a s IH]; intros in_run Hc Hw; [contradiction|].
  rewrite sub_spaces_from_cons in Hc. destruct (Str.isspace a) eqn:Ea.
  - destruct in_run.
    + eapply IH; eauto.
    + destruct Hc as [<-|Hc]; [reflexivity|]. eapply IH; eauto.
  - destruct Hc as [<-|Hc]; [congruence|]. eapply IH; eauto.
Qed.

Lemma sub_spaces_from_length (in_run : bool) (s : str) :
  (length (Re.sub_spaces_from in_run s) <= length s)%nat.
Proof.
  revert in_run. induction s as [|a s IH]; intros in_run; [simpl; lia|].
  rewrite sub_spaces_from_cons.
  pose proof (IH true). pose proof (IH false).
  destruct (Str.isspace a); [destruct in_run|]; simpl; lia.
Qed.

Lemma cleaned_length (s : str) : (length (cleaned s) <= length s)%nat.
Proof.
  unfold cleaned. etransitivity; [apply encode_ascii_ignore_length|].
  apply sub_spaces_from_length.
Qed.

(** X7: in the text the cleaning cell hands on, every character is in the
    7-bit range and the only whitespace character is the space: no tab, no
    newline, nothing outside ASCII reaches the tokenizer. *)
Theorem clean_corpus_characters (df df' : DataFrame str) (r : row str)
    (c : char) :
  clean_corpus df = OK df' ->
  In r df' -> In c (Text r) ->
  c < 128 /\ (Str.isspace c = true -> c = SPACE).
Proof.
  intros E Hr Hc. destruct df as [|r0 df0]; [discriminate E|].
  rewrite clean_corpus_frame in E by discriminate.
  assert (E' : df' = map clean_row (r0 :: df0)) by congruence.
  rewrite E' in Hr. clear E E'.
  apply in_map_iff in Hr as (r1 & <- & _). cbn [clean_row Text] in Hc.
  unfold cleaned, Str.encode_ascii_ignore in Hc.
  apply filter_In in Hc as [Hc Hlt]. split.
  - apply N.ltb_lt. exact Hlt.
  - apply (sub_spaces_from_only_spaces false (Text r1)). exact Hc.
Qed.

Lemma extract_rows_Length (data : list pyval) (rows : DataFrame str) :
  extract_rows data = OK rows ->
  forall r, In r rows -> Length r = length (Text r).
Proof.
  revert rows. induction data as [|doc data IH]; intros rows E r Hr.
  - inv E. contradiction.
  - cbn [extract_rows] in E.
    destruct (Obj.get doc (lit "text")) as [t|]; cbn [bind] in E;
      [|discriminate].
    destruct (Obj.is_not_None t); [|eapply IH; eauto].
    destruct (Obj.join (lit " ") t) as [text|]; cbn [bind] in E;
      [|discriminate].
    destruct (extract_rows data) as [rows'|]; cbn [bind] in E;
      [|discriminate].
    inv E. destruct Hr as [<-|Hr]; [reflexivity|]. eapply IH; eauto.
Qed.

(** X8: [Length] is the length of the flattened text when the row is made,
    and is not kept up to date: after the cleaning cell it is an upper
    bound of the length of [Text]. *)
Theorem Length_bounds_cleaned_text (data : list pyval)
    (rows df : DataFrame str) :
  extract_rows data = OK rows ->
  clean_corpus rows = OK df ->
  (forall r, In r rows -> Length r = length (Text r))
  /\ map Length df = map Length rows
  /\ (forall r, In r df -> (length (Text r) <= Length r)%nat).
Proof.
  intros Ex Ec. pose proof (extract_rows_Length data rows Ex) as HL.
  destruct rows as [|r0 rows0]; [discriminate Ec|].
  rewrite clean_corpus_frame in Ec by discriminate.
  assert (E' : df = map clean_row (r0 :: rows0)) by congruence.
  rewrite E'. clear Ec E'.
  split; [exact HL|]. split.
  - rewrite map_map. reflexivity.
  - intros r Hr. apply in_map_iff in Hr as (r1 & <- & Hr1).
    cbn [clean_row Text Length]. rewrite (HL r1 Hr1). apply cleaned_length.
Qed.

(** ** The extraction loop *)

Lemma join_length (sep : str) (l : list str) :
  length (Str.join sep l)
  = (list_sum (map (@length char) l) + (length l - 1) * length sep)%nat.
Proof.
  induction l as [|s l IH]; [reflexivity|].
  destruct l as [|s' l].
  - simpl. lia.
  - change (Str.join sep (s :: s' :: l))
      with (s ++ sep ++ Str.join sep (s' :: l)).
    rewrite !length_app, IH. cbn [map list_sum length].
    rewrite !Nat.sub_succ, !Nat.sub_0_r, Nat.mul_succ_l.
    unfold list_sum. cbn [fold_right]. lia.
Qed.

Lemma mapM_as_str (frags : list str) :
  mapM Obj.as_str (map PyStr frags) = OK frags.
Proof.
  induction frags as [|s frags IH]; [reflexivity|].
  cbn [map mapM Obj.as_str bind]. rewrite IH. reflexivity.
Qed.

(** X9: a document whose [text] is a list of strings gets one row; its
    [Text] is the fragments joined by single spaces and its [Length] the
    sum of their lengths plus one for every fragment after the first.  For
    the empty list this is the empty string and length 0. *)
Theorem extract_rows_flattens (d : list (str * pyval)) (frags : list str) :
  Obj.lookup d (lit "text") = Some (PyList (map PyStr frags)) ->
  extract_rows [PyDict d]
  = OK [{| Text := Str.join (lit " ") frags;
           Length := list_sum (map (@length char) frags)
                     + length (tl frags) |}]
  /\ (frags = [] -> extract_rows [PyDict d] = OK [empty_row]).
Proof.
  intros H.
  assert (E : extract_rows [PyDict d]
              = OK [{| Text := Str.join (lit " ") frags;
                       Length := list_sum (map (@length char) frags)
                                 + length (tl frags) |}]).
  { cbn [extract_rows Obj.get]. rewrite H.
    cbn [bind Obj.is_not_None]. unfold Obj.join.
    cbn [Obj.iterate bind]. rewrite mapM_as_str. cbn [bind].
    rewrite join_length. change (length (lit " ")) with 1%nat.
    rewrite Nat.mul_1_r. do 4 f_equal.
    destruct frags; simpl; lia. }
  split; [exact E|]. intros ->. exact E.
Qed.

Lemma extract_rows_flattens_witness :
  Obj.lookup [(lit "text", PyList (map PyStr [lit "ab"; lit "c"; lit "def"]))]
    (lit "text")
  = Some (PyList (map PyStr [lit "ab"; lit "c"; lit "def"]))
  /\ extract_rows
       [PyDict [(lit "text",
                 PyList (map PyStr [lit "ab"; lit "c"; lit "def"]))]]
     = OK [{| Text := lit "ab c def"; Length := 8 |}].
Proof.
  split; [reflexivity|].
  apply (extract_rows_flattens
           [(lit "text", PyList (map PyStr [lit "ab"; lit "c"; lit "def"]))]
           [lit "ab"; lit "c"; lit "def"]).
  reflexivity.
Defined.

(** X10: a [text] that is one string, not a list of strings, is taken
    character by character: the row holds the characters with a space
    between every two of them. *)
Theorem extract_rows_text_as_string (d : list (str * pyval)) (s : str) :
  Obj.lookup d (lit "text") = Some (PyStr s) ->
  extract_rows [PyDict d]
  = OK [{| Text := Str.join (lit " ") (map (fun c => [c]) s);
           Length := length s + (length s - 1) |}].
Proof.
  intros H. cbn [extract_rows Obj.get]. rewrite H.
  cbn [bind Obj.is_not_None]. unfold Obj.join.
  cbn [Obj.iterate bind].
  rewrite <- (map_map (fun c => [c]) PyStr), mapM_as_str. cbn [bind].
  rewrite join_length, map_map, length_map.
  change (length (lit " ")) with 1%nat. rewrite Nat.mul_1_r.
  assert (E : list_sum (map (fun c : char => length [c]) s) = length s).
  { clear H. induction s as [|c s IH]; [reflexivity|].
    simpl. f_equal. exact IH. }
  rewrite E. reflexivity.
Qed.

Lemma extract_rows_text_as_string_witness :
  Obj.lookup [(lit "text", PyStr (lit "abc"))] (lit "text")
  = Some (PyStr (lit "abc"))
  /\ extract_rows [PyDict [(lit "text", PyStr (lit "abc"))]]
     = OK [{| Text := lit "a b c"; Length := 5 |}].
Proof.
  split; [reflexivity|].
  apply (extract_rows_text_as_string
           [(lit "text", PyStr (lit "abc"))] (lit "abc")).
  reflexivity.
Defined.

Lemma extract_rows_length (data : list pyval) (rows : DataFrame str) :
  extract_rows data = OK rows -> length rows = length (filter has_text data).
Proof.
  revert rows. induction data as [|doc data IH]; intros rows E.
  - inv E. reflexivity.
  - cbn [extract_rows] in E. cbn [filter]. unfold has_text at 1.
    destruct (Obj.get doc (lit "text")) as [t|]; cbn [bind] in E;
      [|discriminate].
    destruct (Obj.is_not_None t); [|apply IH; exact E].
    destruct (Obj.join (lit " ") t) as [text|]; cbn [bind] in E;
      [|discriminate].
    destruct (extract_rows data) as [rows'|]; cbn [bind] in E;
      [|discriminate].
    inv E. cbn [length]. f_equal. apply IH. reflexivity.
Qed.

(** X11: the frame has one row for every document whose [text] is not
    [None], in the order of the shard, and so never more rows than the
    shard has documents. *)
Theorem extract_rows_count (data : list pyval) (rows : DataFrame str) :
  extract_rows data = OK rows ->
  length rows = length (filter has_text data)
  /\ (length rows <= length data)%nat.
Proof.
  intros E. pose proof (extract_rows_length data rows E) as H.
  split; [exact H|]. rewrite H. apply filter_length_le.
Qed.

Lemma extract_rows_count_witness :
  extract_rows
    [PyDict [(lit "text", PyList [PyStr (lit "x")])];
     PyDict [(lit "uri", PyStr (lit "u"))];
     PyDict [(lit "text", PyNone)]]
  = OK [{| Text := lit "x"; Length := 1 |}]
  /\ length [{| Text := lit "x"; Length := 1 |}]
     = length (filter has_text
                 [PyDict [(lit "text", PyList [PyStr (lit "x")])];
                  PyDict [(lit "uri", PyStr (lit "u"))];
                  PyDict [(lit "text", PyNone)]]).
Proof.
  split; [reflexivity|].
  apply (extract_rows_count
           [PyDict [(lit "text", PyList [PyStr (lit "x")])];
            PyDict [(lit "uri", PyStr (lit "u"))];
            PyDict [(lit "text", PyNone)]]
           [{| Text := lit "x"; Length := 1 |}]).
  reflexivity.
Defined.

(** X12: no document is isolated from the others.  When the loop has got
    through the documents before it, a document on which the loop body
    raises makes the whole extraction raise the same exception, whatever
    follows and however many rows were collected. *)
Theorem bad_document_aborts (pre post : list pyval) (doc : pyval)
    (rows : DataFrame str) (e : exn) :
  extract_rows pre = OK rows ->
  extract_rows [doc] = Raise e ->
  extract_rows (pre ++ doc :: post) = Raise e.
Proof.
  intros Hpre Hdoc. change (doc :: post) with ([doc] ++ post).
  rewrite !extract_rows_app, Hpre, Hdoc. reflexivity.
Qed.

Lemma bad_document_aborts_witness :
  extract_rows [PyDict [(lit "text", PyList [PyStr (lit "x")])]]
  = OK [{| Text := lit "x"; Length := 1 |}]
  /\ extract_rows [PyStr (lit "not a dict")] = Raise AttributeError
  /\ extract_rows
       ([PyDict [(lit "text", PyList [PyStr (lit "x")])]]
        ++ PyStr (lit "not a dict")
           :: [PyDict [(lit "text", PyList [PyStr (lit "y")])]])
     = Raise AttributeError.
Proof.
  split; [reflexivity|]. split; [reflexivity|].
  apply (bad_document_aborts
           [PyDict [(lit "text", PyList [PyStr (lit "x")])]]
           [PyDict [(lit "text", PyList [PyStr (lit "y")])]]
           (PyStr (lit "not a dict"))
           [{| Text := lit "x"; Length := 1 |}] AttributeError);
    reflexivity.
Defined.

(** ** The notebook as a whole *)

Lemma well_formed_extracts (data : list pyval) :
  forallb well_formed data = true -> exists rows, extract_rows data = OK rows.
Proof.
  induction data as [|doc data IH]; intros H.
  - eexists; reflexivity.
  - cbn [forallb] in H. apply andb_true_iff in H as [Hd H].
    destruct (IH H) as [rows Hrows]. cbn [extract_rows]. rewrite Hrows.
    destruct doc as [| | | | | |d]; try discriminate Hd.
    cbn [well_formed] in Hd. cbn [Obj.get].
    destruct (Obj.lookup d (lit "text")) as [[| | | | |l|]|];
      try discriminate Hd; cbn [bind Obj.is_not_None];
      try (eexists; reflexivity).
    unfold Obj.join. cbn [Obj.iterate bind].
    assert (E : exists strs, mapM Obj.as_str l = OK strs).
    { clear - Hd. induction l as [|v l IHl]; [eexists; reflexivity|].
      cbn [forallb] in Hd. apply andb_true_iff in Hd as [Hv Hl].
      destruct (IHl Hl) as [strs Hs]. destruct v; try discriminate Hv.
      cbn [mapM Obj.as_str bind]. rewrite Hs. eexists; reflexivity. }
    destruct E as [strs ->]. cbn [bind]. eexists; reflexivity.
Qed.

Lemma report_lengths_rows (df : DataFrame str) :
  df <> [] -> report_lengths df = OK tt.
Proof. destruct df; [contradiction|reflexivity]. Qed.

Section Whole.

Context {U : Unicode} {P : Punkt}.

Lemma apply_all_returns (df : DataFrame str) :
  df <> [] ->
  (forall r, In r df -> exists l, sent_tokenize (Text r) = OK l) ->
  exists df', apply_all df = OK df' /\ length df' = length df.
Proof.
  intros Hne Htok.
  destruct (mapM_In_total nltk_segmentation (map Text df)) as [segs Hseg].
  { intros a Ha. apply in_map_iff in Ha as (r & <- & Hr). apply Htok, Hr. }
  destruct (apply_all_value df segs Hne Hseg) as (cl & df' & Hcl & E & T).
  exists df'. split; [exact E|].
  rewrite <- (length_map Text df'), T, length_map.
  rewrite (mapM_length _ _ _ Hcl), (mapM_length _ _ _ Hseg), length_map.
  reflexivity.
Qed.

(** X13: on a shard of well-formed documents, one of them at least with a
    [text], and with a tokenizer that returns, the notebook raises nothing
    and the run replaces the output file by the text it built. *)
Theorem notebook_returns (data : list pyval) :
  forallb well_formed data = true ->
  existsb has_text data = true ->
  (forall text, exists l, sent_tokenize text = OK l) ->
  exists out,
    notebook (OK (PyList data)) = OK out
    /\ forall old, run (OK (PyList data)) old = (Some out, OK tt).
Proof.
  intros Hwf Hex Htok.
  destruct (well_formed_extracts data Hwf) as [rows Hrows].
  assert (Hne : rows <> []).
  { intros ->. apply extract_rows_length in Hrows. cbn [length] in Hrows.
    apply existsb_exists in Hex as (doc & Hdoc & Hd).
    assert (Hin : In doc (filter has_text data)) by (apply filter_In; auto).
    destruct (filter has_text data); [contradiction|discriminate]. }
  assert (Hhead : head rows <> []) by (destruct rows; [contradiction|discriminate]).
  assert (Hclean : map clean_row (head rows) <> []).
  { destruct (head rows); [contradiction|discriminate]. }
  destruct (apply_all_returns (map clean_row (head rows)) Hclean)
    as (df' & Happly & Hlen).
  { intros r _. apply Htok. }
  assert (Hne' : df' <> []).
  { intros ->. rewrite length_map in Hlen.
    destruct (head rows); [contradiction|discriminate]. }
  assert (E : notebook (OK (PyList data))
              = OK (Str.join [NEWLINE; NEWLINE] (map Text df'))).
  { unfold notebook. rewrite extract_array, Hrows. cbn [bind].
    rewrite report_lengths_rows by exact Hne. cbn [bind].
    rewrite clean_corpus_frame by exact Hhead. cbn [bind].
    rewrite Happly. cbn [bind]. apply concatenate_value, Hne'. }
  eexists. split; [exact E|].
  intros old. unfold run. rewrite E. reflexivity.
Qed.

(** X14: only the first five rows of the frame reach the file.  Documents
    after those that gave the first five rows change nothing in what the
    notebook returns, as long as the extraction loop gets through them. *)
Theorem documents_after_head_are_ignored (pre post : list pyval)
    (rows_pre rows_post : DataFrame str) :
  extract_rows pre = OK rows_pre ->
  extract_rows post = OK rows_post ->
  (5 <= length rows_pre)%nat ->
  notebook (OK (PyList (pre ++ post))) = notebook (OK (PyList pre)).
Proof.
  intros Hpre Hpost Hlen. unfold notebook.
  rewrite !extract_array, extract_rows_app, Hpre, Hpost. cbn [bind].
  rewrite !report_lengths_rows
    by (destruct rows_pre; [simpl in Hlen; lia|discriminate]).
  cbn [bind]. unfold head.
  rewrite firstn_app.
  replace (5 - length rows_pre)%nat with 0%nat by lia.
  cbn [firstn]. rewrite app_nil_r. reflexivity.
Qed.

End Whole.

Lemma notebook_returns_witness :
  forallb well_formed
    [PyDict [(lit "uri", PyStr (lit "u"))];
     PyDict [(lit "text", PyList [PyStr (lit "It works well. Yes.")])]]
  = true
  /\ exists out,
       @notebook ascii_digits full_stop_tokenizer
         (OK (PyList
                [PyDict [(lit "uri", PyStr (lit "u"))];
                 PyDict [(lit "text",
                          PyList [PyStr (lit "It works well. Yes.")])]]))
       = OK out.
Proof.
  split; [reflexivity|].
  destruct (@notebook_returns ascii_digits full_stop_tokenizer
              [PyDict [(lit "uri", PyStr (lit "u"))];
               PyDict [(lit "text",
                        PyList [PyStr (lit "It works well. Yes.")])]]
              eq_refl eq_refl
              (fun text => ex_intro _ (cut_at_full_stops [] text) eq_refl))
    as (out & E & _).
  exists out. exact E.
Defined.

Lemma documents_after_head_are_ignored_witness :
  extract_rows (repeat (PyDict [(lit "text", PyList [PyStr (lit "x")])]) 5)
  = OK (repeat {| Text := lit "x"; Length := 1 |} 5)
  /\ @notebook ascii_digits full_stop_tokenizer
       (OK (PyList
              (repeat (PyDict [(lit "text", PyList [PyStr (lit "x")])]) 5
               ++ [PyDict [(lit "text",
                            PyList [PyStr (lit "One two three.")])]])))
     = @notebook ascii_digits full_stop_tokenizer
         (OK (PyList
                (repeat (PyDict [(lit "text", PyList [PyStr (lit "x")])]) 5))).
Proof.
  split; [reflexivity|].
  apply (@documents_after_head_are_ignored ascii_digits full_stop_tokenizer
           (repeat (PyDict [(lit "text", PyList [PyStr (lit "x")])]) 5)
           [PyDict [(lit "text", PyList [PyStr (lit "One two three.")])]]
           (repeat {| Text := lit "x"; Length := 1 |} 5)
           [{| Text := lit "One two three."; Length := 14 |}]).
  - reflexivity.
  - reflexivity.
  - simpl. lia.
Defined.

(** ** The apply cell and the written text *)

Lemma mapM_Raise_inv {A B : Type} (f : A -> result B) (l : list A) (e : exn) :
  mapM f l = Raise e -> exists a, In a l /\ f a = Raise e.
Proof.
  induction l as [|a l IH]; cbn [mapM]; intros E; [discriminate|].
  destruct (f a) as [b|e'] eqn:Ea; cbn [bind] in E.
  - destruct (mapM f l) as [r|e']; cbn [bind] in E; [discriminate|].
    destruct (IH E) as (a' & Ha' & E'). exists a'. auto using in_cons.
  - inv E. exists a. split; [left; reflexivity|exact Ea].
Qed.

Lemma lines_join (texts : list str) :
  lines (Str.join [NEWLINE; NEWLINE] texts)
  = one_blank_line_between (map lines texts).
Proof.
  induction texts as [|t texts IH]; [reflexivity|].
  destruct texts as [|t' texts]; [reflexivity|].
  change (Str.join [NEWLINE; NEWLINE] (t :: t' :: texts))
    with (t ++ NEWLINE :: NEWLINE :: Str.join [NEWLINE; NEWLINE] (t' :: texts)).
  unfold lines at 1. rewrite lines_from_app.
  change (lines_from [] (NEWLINE :: ?x)) with ([] :: lines x).
  rewrite IH. reflexivity.
Qed.



Lemma count_words_app (a b : list str) :
  count_words (a ++ b) = (count_words a + count_words b)%nat.
Proof. unfold count_words. rewrite map_app. apply list_sum_app. Qed.

Lemma length_concat_split (l : list str) :
  length (concat (map Str.split l)) = count_words l.
Proof.
  induction l as [|s l IH]; [reflexivity|].
  cbn [map concat]. rewrite length_app, IH. reflexivity.
Qed.

Section WrittenText.

Context {U : Unicode} {P : Punkt}.

(** X15: in the apply cell only the tokenizer can raise.  On a frame with
    rows the cell returns, with as many rows, exactly when the tokenizer
    returns on the text of every row; when it raises, the exception is one
    the tokenizer raised on a row. *)
Theorem apply_all_raises_with_tokenizer (df : DataFrame str) :
  df <> [] ->
  ((exists df', apply_all df = OK df' /\ length df' = length df)
   <-> forall r, In r df -> exists l, sent_tokenize (Text r) = OK l)
  /\ forall e, apply_all df = Raise e ->
       exists r, In r df /\ sent_tokenize (Text r) = Raise e.
Proof.
  intros Hne. split; [split|].
  - intros (df' & E & _) r Hr.
    destruct (apply_all_inv df df' E) as (segs & _ & Hseg & _).
    apply in_split in Hr as (d1 & d2 & ->).
    rewrite map_app in Hseg. cbn [map] in Hseg.
    apply mapM_middle_inv in Hseg as (_ & l & _ & _ & Hl & _).
    exists l. exact Hl.
  - apply apply_all_returns, Hne.
  - intros e E.
    destruct (mapM nltk_segmentation (map Text df)) as [segs|e'] eqn:Hseg.
    + destruct (apply_all_value df segs Hne Hseg) as (_ & df' & _ & E' & _).
      rewrite E in E'. discriminate E'.
    + assert (e' = e).
      { unfold apply_all in E.
        replace (getitem_Text df) with (OK (map Text df)) in E
          by (destruct df; [contradiction|reflexivity]).
        cbn [bind] in E. rewrite Hseg in E. inv E. reflexivity. }
      subst e'. apply mapM_Raise_inv in Hseg as (t & Ht & Et).
      apply in_map_iff in Ht as (r & <- & Hr). exists r. auto.
Qed.

(** What the apply cell and the join make of a frame: the sentence lists
    [sent_cleaning] returned, one per row, converted and joined. *)
Lemma written_text_documents (df : DataFrame str) (out : str) :
  (df <- apply_all df ;; concatenate df) = OK out ->
  exists docs : list (list str),
    length docs = length df
    /\ docs <> []
    /\ out = Str.join [NEWLINE; NEWLINE] (map sent_convert docs)
    /\ forall doc, In doc docs -> exists given, sent_cleaning given = OK doc.
Proof.
  intros E. destruct (apply_all df) as [df'|] eqn:Ea; cbn [bind] in E;
    [|discriminate].
  destruct (apply_all_inv df df' Ea) as (segs & cl & Hseg & Hcl & T).
  assert (Hne' : df' <> []).
  { intros ->. unfold concatenate in E. discriminate E. }
  rewrite concatenate_value, T in E by exact Hne'. inv E.
  exists cl. split; [|split; [|split; [reflexivity|]]].
  - rewrite (mapM_length _ _ _ Hcl), (mapM_length _ _ _ Hseg), length_map.
    reflexivity.
  - intros ->. destruct df'; [contradiction|discriminate T].
  - intros doc Hdoc.
    destruct (mapM_In_inv _ _ _ _ Hcl Hdoc) as (seg & _ & Hdoc').
    exists seg. exact Hdoc'.
Qed.

Lemma sent_cleaning_bounds (given doc : list str) (sent : str) :
  sent_cleaning given = OK doc -> In sent doc ->
  (2 < length (Str.split sent) < 200)%nat.
Proof.
  rewrite sent_cleaning_value. intros E Hs. inv E.
  apply in_map_iff in Hs as (words & <- & Hw).
  apply filter_In in Hw as [Hw Hn].
  apply in_map_iff in Hw as (s0 & <- & _).
  rewrite split_join_words by apply cleaned_words_are_words.
  unfold window in Hn. apply andb_true_iff in Hn as [H2 H200].
  apply Nat.ltb_lt in H2. apply Nat.ltb_lt in H200. lia.
Qed.

Lemma count_words_window (docs : list (list str)) :
  (forall doc, In doc docs -> exists given, sent_cleaning given = OK doc) ->
  (3 * length (concat docs) <= count_words (concat docs)
   <= 199 * length (concat docs))%nat.
Proof.
  intros H. unfold count_words.
  assert (F : forall sent, In sent (concat docs) ->
                (2 < length (Str.split sent) < 200)%nat).
  { intros sent Hs. apply in_concat in Hs as (doc & Hdoc & Hs).
    destruct (H doc Hdoc) as [given Hg].
    apply (sent_cleaning_bounds given doc sent Hg Hs). }
  induction (concat docs) as [|s l IH]; [simpl; lia|].
  cbn [map length]. unfold list_sum in *. cbn [fold_right].
  specialize (IH (fun x Hx => F x (or_intror Hx))).
  specialize (F s (or_introl eq_refl)). lia.
Qed.

End WrittenText.

Lemma sentence_lines_in_block (doc : list str) :
  (forall sent, In sent doc -> sent <> [] /\ ~ In NEWLINE sent) ->
  filter (fun line => negb (is_blank line)) (lines (sent_convert doc)) = doc.
Proof.
  intros H. destruct doc as [|s doc]; [reflexivity|].
  rewrite lines_sent_convert; [|discriminate|intros x Hx; apply H, Hx].
  induction (s :: doc) as [|x l IH]; [reflexivity|].
  cbn [filter]. destruct x as [|c x].
  - destruct (H [] (or_introl eq_refl)) as [Hn _]. contradiction.
  - cbn [is_blank negb]. f_equal. apply IH.
    intros y Hy. apply H. right. exact Hy.
Qed.

Lemma sentence_lines_of_documents (docs : list (list str)) :
  (forall doc sent, In doc docs -> In sent doc ->
     sent <> [] /\ ~ In NEWLINE sent) ->
  filter (fun line => negb (is_blank line))
    (lines (Str.join [NEWLINE; NEWLINE] (map sent_convert docs)))
  = concat docs.
Proof.
  rewrite lines_join, map_map.
  induction docs as [|doc docs IH]; intros H; [reflexivity|].
  assert (Hb := sentence_lines_in_block doc
                  (fun s Hs => H doc s (or_introl eq_refl) Hs)).
  destruct docs as [|doc' docs].
  - cbn [map one_blank_line_between concat]. rewrite Hb, app_nil_r.
    reflexivity.
  - change (one_blank_line_between
              (map (fun x => lines (sent_convert x)) (doc :: doc' :: docs)))
      with (lines (sent_convert doc) ++ [] ::
            one_blank_line_between
              (map (fun x => lines (sent_convert x)) (doc' :: docs))).
    rewrite filter_app, Hb. cbn [filter is_blank negb].
    rewrite IH by (intros d s Hd; apply H; right; exact Hd).
    reflexivity.
Qed.

Section WrittenDocuments.

Context {U : Unicode} {P : Punkt}.

(** What the apply cell and the join make of a frame: the tokenizer's
    sentences of every row, then what [sent_cleaning] returns for each,
    converted and joined. *)
Lemma written_text_segments (df : DataFrame str) (out : str) :
  (df <- apply_all df ;; concatenate df) = OK out ->
  exists (segs docs : list (list str)),
    mapM nltk_segmentation (map Text df) = OK segs
    /\ mapM sent_cleaning segs = OK docs
    /\ docs <> []
    /\ length docs = length df
    /\ out = Str.join [NEWLINE; NEWLINE] (map sent_convert docs).
Proof.
  intros E. destruct (apply_all df) as [df'|] eqn:Ea; cbn [bind] in E;
    [|discriminate].
  destruct (apply_all_inv df df' Ea) as (segs & cl & Hseg & Hcl & T).
  assert (Hne' : df' <> []).
  { intros ->. unfold concatenate in E. discriminate E. }
  rewrite concatenate_value, T in E by exact Hne'.
  exists segs, cl. split; [exact Hseg|]. split; [exact Hcl|]. split; [|split].
  - intros ->. destruct df'; [contradiction|discriminate T].
  - rewrite (mapM_length _ _ _ Hcl), (mapM_length _ _ _ Hseg), length_map.
    reflexivity.
  - congruence.
Qed.

Lemma cleaned_documents_one_line (segs docs : list (list str)) :
  mapM sent_cleaning segs = OK docs ->
  forall doc sent, In doc docs -> In sent doc ->
    sent <> [] /\ ~ In NEWLINE sent.
Proof.
  intros Hcl doc sent Hdoc Hsent.
  destruct (mapM_In_inv _ _ _ _ Hcl Hdoc) as (seg & _ & Hg).
  apply (sent_cleaning_one_line seg doc sent Hg Hsent).
Qed.


(** X17: the number of words the notebook reports for the text it saves,
    [len(sentences.split())].  With [docs] as before, it is the number of
    words of all the sentences of [docs], and it is at least 3 and at most
    199 times the number of lines of the text that are not empty, which are
    these sentences. *)
Theorem words_written (df : DataFrame str) (out : str) :
  (df <- apply_all df ;; concatenate df) = OK out ->
  exists (segs docs : list (list str)),
    mapM nltk_segmentation (map Text df) = OK segs
    /\ mapM sent_cleaning segs = OK docs
    /\ filter (fun line => negb (is_blank line)) (lines out) = concat docs
    /\ length (Str.split out) = count_words (concat docs)
    /\ (3 * length (filter (fun line => negb (is_blank line)) (lines out))
        <= length (Str.split out)
        <= 199 * length (filter (fun line => negb (is_blank line))
                           (lines out)))%nat.
Proof.
  intros E.
  destruct (written_text_segments df out E)
    as (segs & docs & Hseg & Hcl & Hne & L & ->).
  pose proof (cleaned_documents_one_line segs docs Hcl) as H1.
  pose proof (sentence_lines_of_documents docs H1) as Hlines.
  assert (W : length (Str.split (Str.join [NEWLINE; NEWLINE]
                                   (map sent_convert docs)))
              = count_words (concat docs)).
  { rewrite split_join;
      [|discriminate|intros c [<-|[<-|[]]]; reflexivity].
    rewrite map_map. clear.
    induction docs as [|doc docs IH]; [reflexivity|].
    cbn [map concat]. rewrite length_app, IH, count_words_app.
    f_equal. unfold sent_convert.
    rewrite split_join; [|discriminate|intros c [<-|[]]; reflexivity].
    apply length_concat_split. }
  exists segs, docs. repeat split; try assumption.
  - rewrite Hlines, W. apply count_words_window.
    intros doc Hdoc. destruct (mapM_In_inv _ _ _ _ Hcl Hdoc) as (seg & _ & Hg).
    exists seg. exact Hg.
  - rewrite Hlines, W. apply count_words_window.
    intros doc Hdoc. destruct (mapM_In_inv _ _ _ _ Hcl Hdoc) as (seg & _ & Hg).
    exists seg. exact Hg.
Qed.

End WrittenDocuments.

(** ** The key check *)

Lemma collect_keys_In (data : list pyval) (keys : list str) (k : str) :
  collect_keys data = OK keys ->
  (In k keys <-> exists d, In (PyDict d) data /\ In k (map fst d)).
Proof.
  revert keys. induction data as [|doc data IH]; intros keys E.
  - inv E. split; [intros []|intros (d & [] & _)].
  - cbn [collect_keys] in E.
    destruct (items doc) as [kvs|] eqn:Ei; cbn [bind] in E; [|discriminate].
    destruct (collect_keys data) as [keys'|]; cbn [bind] in E;
      [|discriminate].
    inv E. destruct doc; try discriminate Ei. inv Ei.
    rewrite in_app_iff, (IH keys' eq_refl). split.
    + intros [H|(d' & Hd & Hk)].
      * exists kvs. split; [left; reflexivity|exact H].
      * exists d'. split; [right; exact Hd|exact Hk].
    + intros (d' & [Hd|Hd] & Hk).
      * inv Hd. left. exact Hk.
      * right. exists d'. auto.
Qed.

(** X18: for a shard that is a list, the line the key check prints holds
    the number of documents of the shard and, without repetition, exactly
    the keys that occur in one document at least. *)
Theorem check_file_keys (id : nat) (data : list pyval) (line : key_line) :
  check_file id (OK (PyList data)) = inr line ->
  id_file line = id
  /\ documents line = length data
  /\ NoDup (myset line)
  /\ forall k, In k (myset line)
               <-> exists d, In (PyDict d) data /\ In k (map fst d).
Proof.
  unfold check_file. cbn [bind Obj.iterate Obj.len].
  destruct (collect_keys data) as [keys|] eqn:Ek; cbn [bind]; [|discriminate].
  destruct (length data =? 0)%nat; [discriminate|].
  intros E. inv E. cbn [id_file documents myset].
  repeat split; try apply NoDup_nodup.
  - intros H. apply nodup_In in H.
    apply (collect_keys_In data keys k Ek). exact H.
  - intros H. apply nodup_In.
    apply (collect_keys_In data keys k Ek). exact H.
Qed.

Lemma check_file_keys_witness :
  check_file 3
    (OK (PyList [PyDict [(lit "uri", PyStr (lit "u")); (lit "text", PyList [])];
                 PyDict [(lit "uri", PyStr (lit "v"))]]))
  = inr {| id_file := 3; myset := [lit "text"; lit "uri"]; documents := 2 |}
  /\ documents {| id_file := 3; myset := [lit "text"; lit "uri"];
                  documents := 2 |} = 2%nat.
Proof.
  split; [reflexivity|].
  apply (check_file_keys 3
           [PyDict [(lit "uri", PyStr (lit "u")); (lit "text", PyList [])];
            PyDict [(lit "uri", PyStr (lit "v"))]]
           {| id_file := 3; myset := [lit "text"; lit "uri"];
              documents := 2 |}).
  reflexivity.
Defined.

(** X19: the key check divides by the number of documents.  It raises
    [ZeroDivisionError] on a shard that decodes to an empty list, an empty
    object or an empty string, and on no other. *)
Theorem check_file_zero_division (id : nat) (loaded : result pyval) :
  check_file id loaded = inl ZeroDivisionError
  <-> loaded = OK (PyList []) \/ loaded = OK (PyDict [])
      \/ loaded = OK (PyStr []).
Proof.
  split.
  - unfold check_file. destruct loaded as [data|e]; [|discriminate].
    cbn [bind].
    destruct (Obj.iterate data) as [docs|] eqn:Ei; cbn [bind];
      [|discriminate].
    destruct (collect_keys docs) as [keys|]; cbn [bind]; [|discriminate].
    destruct (Obj.len data) as [n|] eqn:El; cbn [bind]; [|discriminate].
    destruct (Nat.eqb_spec n 0) as [->|_]; [|discriminate]. intros _.
    destruct data as [| | | |s|l|d]; try discriminate El; inv El.
    + right. right. destruct s; [reflexivity|discriminate].
    + left. destruct l; [reflexivity|discriminate].
    + right. left. destruct d; [reflexivity|discriminate].
  - intros [->|[->| ->]]; reflexivity.
Qed.

(** X20: the loop over the files stops at the first file whose check
    raises: the lines of the files before it have been printed, nothing is
    printed for it or for the files after it. *)
Theorem check_files_stop (id : nat) (pre post : list (result pyval))
    (loaded : result pyval) (printed : list key_line) (e : check_exn) :
  check_files id pre = (printed, None) ->
  check_file (id + length pre) loaded = inl e ->
  check_files id (pre ++ loaded :: post) = (printed, Some e).
Proof.
  revert id printed. induction pre as [|f pre IH]; intros id printed Hpre He.
  - inv Hpre. cbn [app check_files]. rewrite Nat.add_0_r in He.
    rewrite He. reflexivity.
  - cbn [app check_files] in *.
    destruct (check_file id f) as [e0|line]; [discriminate|].
    destruct (check_files (S id) pre) as [printed' e'] eqn:E'.
    inv Hpre. rewrite (IH (S id) printed' E'); [reflexivity|].
    cbn [length] in He. rewrite Nat.add_succ_r in He. exact He.
Qed.

Lemma check_files_stop_witness :
  check_files 1 [OK (PyList [PyDict [(lit "uri", PyStr (lit "u"))]])]
  = ([{| id_file := 1; myset := [lit "uri"]; documents := 1 |}], None)
  /\ check_files 1
       ([OK (PyList [PyDict [(lit "uri", PyStr (lit "u"))]])]
        ++ OK (PyList [])
           :: [OK (PyList [PyDict [(lit "text", PyList [])]])])
     = ([{| id_file := 1; myset := [lit "uri"]; documents := 1 |}],
        Some ZeroDivisionError).
Proof.
  split; [reflexivity|].
  apply (check_files_stop 1
           [OK (PyList [PyDict [(lit "uri", PyStr (lit "u"))]])]
           [OK (PyList [PyDict [(lit "text", PyList [])]])]
           (OK (PyList []))); reflexivity.
Defined.

(** ** All shards into one frame *)

Lemma append_rows_extract (rows : DataFrame str) (data : list pyval) :
  append_rows rows data = (r <- extract_rows data ;; OK (rows ++ r)).
Proof.
  revert rows. induction data as [|doc data IH]; intros rows.
  - simpl. rewrite app_nil_r. reflexivity.
  - cbn [append_rows extract_rows].
    destruct (Obj.get doc (lit "text")) as [t|]; cbn [bind]; [|reflexivity].
    destruct (Obj.is_not_None t); [|apply IH].
    destruct (Obj.join (lit " ") t) as [text|]; cbn [bind]; [|reflexivity].
    rewrite IH. destruct (extract_rows data); cbn [bind]; [|reflexivity].
    rewrite <- app_assoc. reflexivity.
Qed.

Lemma load_files_extract (rows : DataFrame str) (files : list (result pyval)) :
  load_files rows files
  = (frames <- mapM extract files ;; OK (rows ++ concat frames)).
Proof.
  revert rows. induction files as [|loaded files IH]; intros rows.
  - simpl. rewrite app_nil_r. reflexivity.
  - cbn [load_files mapM]. unfold extract at 1.
    destruct loaded as [data|]; cbn [bind]; [|reflexivity].
    destruct (Obj.len data); cbn [bind]; [|reflexivity].
    destruct (Obj.iterate data) as [docs|]; cbn [bind]; [|reflexivity].
    rewrite append_rows_extract.
    destruct (extract_rows docs) as [r|]; cbn [bind]; [|reflexivity].
    rewrite IH. destruct (mapM extract files); cbn [bind]; [|reflexivity].
    cbn [concat]. rewrite app_assoc. reflexivity.
Qed.

(** X21: the loader of the second notebook, which appends the rows of all
    shards to one list, builds the frames of the first notebook's
    extraction cell put end to end, and raises what that cell raises on
    the first shard it fails on.  The raw text saved from it is the texts
    of these rows joined by blank lines; without any row the join raises
    [KeyError]. *)
Theorem load_files_frames (files : list (result pyval)) :
  load_files [] files = (frames <- mapM extract files ;; OK (concat frames))
  /\ raw_text files
     = (frames <- mapM extract files ;;
        match concat frames with
        | [] => Raise KeyError
        | df => OK (Str.join [NEWLINE; NEWLINE] (map Text df))
        end).
Proof.
  assert (E : load_files [] files
              = (frames <- mapM extract files ;; OK (concat frames))).
  { rewrite load_files_extract. reflexivity. }
  split; [exact E|]. unfold raw_text. rewrite E.
  destruct (mapM extract files) as [frames|]; cbn [bind]; [|reflexivity].
  destruct (concat frames); reflexivity.
Qed.

(** ** Closed instances *)

Lemma clean_corpus_characters_witness :
  clean_corpus [{| Text := lit "a" ++ [9; 10; 0xE9] ++ lit "b"; Length := 5 |}]
  = OK [{| Text := lit "a b"; Length := 5 |}]
  /\ SPACE < 128
  /\ (Str.isspace SPACE = true -> SPACE = SPACE).
Proof.
  split; [reflexivity|].
  apply (clean_corpus_characters
           [{| Text := lit "a" ++ [9; 10; 0xE9] ++ lit "b"; Length := 5 |}]
           [{| Text := lit "a b"; Length := 5 |}]
           {| Text := lit "a b"; Length := 5 |} SPACE).
  - reflexivity.
  - left. reflexivity.
  - right. left. reflexivity.
Defined.

Lemma Length_bounds_cleaned_text_witness :
  extract_rows [PyDict [(lit "text", PyList [PyStr (lit "a  b")])]]
  = OK [{| Text := lit "a  b"; Length := 4 |}]
  /\ clean_corpus [{| Text := lit "a  b"; Length := 4 |}]
     = OK [{| Text := lit "a b"; Length := 4 |}]
  /\ map Length [{| Text := lit "a b"; Length := 4 |}]
     = map Length [{| Text := lit "a  b"; Length := 4 |}].
Proof.
  split; [reflexivity|]. split; [reflexivity|].
  apply (Length_bounds_cleaned_text
           [PyDict [(lit "text", PyList [PyStr (lit "a  b")])]]
           [{| Text := lit "a  b"; Length := 4 |}]
           [{| Text := lit "a b"; Length := 4 |}]);
    reflexivity.
Defined.

Lemma apply_all_raises_with_tokenizer_witness :
  [{| Text := lit "A b c."; Length := 6 |}; empty_row] <> []
  /\ @apply_all ascii_digits strict_tokenizer
       [{| Text := lit "A b c."; Length := 6 |}; empty_row]
     = Raise LookupError
  /\ exists r, In r [{| Text := lit "A b c."; Length := 6 |}; empty_row]
               /\ @sent_tokenize strict_tokenizer (Text r)
                  = Raise LookupError.
Proof.
  split; [discriminate|]. split; [reflexivity|].
  apply (proj2 (@apply_all_raises_with_tokenizer ascii_digits strict_tokenizer
                  [{| Text := lit "A b c."; Length := 6 |}; empty_row]
                  ltac:(discriminate))
           LookupError).
  reflexivity.
Defined.

(** ** Whitespace of the written text *)

Section OutputWhitespace.

Context {U : Unicode} {P : Punkt}.

Lemma sent_cleaning_spaces (given doc : list str) (sent : str) (c : char) :
  sent_cleaning given = OK doc -> In sent doc -> In c sent ->
  Str.isspace c = true -> c = SPACE.
Proof.
  rewrite sent_cleaning_value. intros E Hs Hc Hw.
  assert (E' : doc = map (Str.join (lit " "))
                       (filter (fun words => window (length words))
                          (map cleaned_words given))) by congruence.
  rewrite E' in Hs. clear E E'.
  apply in_map_iff in Hs as (words & <- & Hwords).
  apply filter_In in Hwords as [Hwords _].
  apply in_map_iff in Hwords as (s0 & <- & _).
  apply join_chars in Hc as [[<-|[]]|(t & Ht & Hc)]; [reflexivity|].
  apply cleaned_words_are_words, is_word_inv in Ht as [_ Ht].
  rewrite (Ht c Hc) in Hw. discriminate Hw.
Qed.

(** X22: whatever the tokenizer returns, the only whitespace characters of
    the text the notebook writes are the space between two words and the
    newline: no tab, no carriage return, no other Unicode space gets
    through sentence cleaning. *)
Theorem written_whitespace (df : DataFrame str) (out : str) (c : char) :
  (df <- apply_all df ;; concatenate df) = OK out ->
  In c out -> Str.isspace c = true ->
  c = SPACE \/ c = NEWLINE.
Proof.
  intros E Hc Hw.
  destruct (written_text_documents df out E) as (docs & _ & _ & -> & Hd).
  apply join_chars in Hc as [[<-|[<-|[]]]|(t & Ht & Hc)]; auto.
  apply in_map_iff in Ht as (doc & <- & Hdoc).
  unfold sent_convert in Hc.
  apply join_chars in Hc as [[<-|[]]|(sent & Hsent & Hc)]; auto.
  left. destruct (Hd doc Hdoc) as [given Hg].
  apply (sent_cleaning_spaces given doc sent c Hg Hsent Hc Hw).
Qed.

End OutputWhitespace.

Lemma written_whitespace_witness :
  (df <- @apply_all ascii_digits full_stop_tokenizer
           [{| Text := lit "A" ++ [9] ++ lit "b c."; Length := 6 |}] ;;
   concatenate df)
  = OK (lit "A b c.")
  /\ (SPACE = SPACE \/ SPACE = NEWLINE).
Proof.
  split; [reflexivity|].
  apply (@written_whitespace ascii_digits full_stop_tokenizer
           [{| Text := lit "A" ++ [9] ++ lit "b c."; Length := 6 |}]
           (lit "A b c.") SPACE).
  - reflexivity.
  - right. left. reflexivity.
  - reflexivity.
Defined.


Lemma words_written_witness :
  (df <- @apply_all ascii_digits full_stop_tokenizer
           [{| Text := lit "A b c. One two three four."; Length := 26 |}] ;;
   concatenate df)
  = OK (lit "A b c." ++ [NEWLINE] ++ lit "One two three four.")
  /\ exists (segs docs : list (list str)),
       mapM (@nltk_segmentation full_stop_tokenizer)
         (map Text
            [{| Text := lit "A b c. One two three four."; Length := 26 |}])
       = OK segs
       /\ mapM (@sent_cleaning ascii_digits) segs = OK docs
       /\ filter (fun line => negb (is_blank line))
            (lines (lit "A b c." ++ [NEWLINE] ++ lit "One two three four."))
          = concat docs
       /\ length (Str.split (lit "A b c." ++ [NEWLINE]
                             ++ lit "One two three four."))
          = count_words (concat docs)
       /\ (3 * length (filter (fun line => negb (is_blank line))
                         (lines (lit "A b c." ++ [NEWLINE]
                                 ++ lit "One two three four.")))
           <= length (Str.split (lit "A b c." ++ [NEWLINE]
                                 ++ lit "One two three four."))
           <= 199 * length (filter (fun line => negb (is_blank line))
                              (lines (lit "A b c." ++ [NEWLINE]
                                      ++ lit "One two three four."))))%nat.
Proof.
  split; [reflexivity|].
  apply (@words_written ascii_digits full_stop_tokenizer
           [{| Text := lit "A b c. One two three four."; Length := 26 |}]).
  reflexivity.
Defined.

(* ================================================================== *)
(** ** Rows beyond the head of the frame *)


